(** * pwagenerator: the icon pipeline of [src/App.tsx]

    A shallow embedding of [generatePngBlob], [generateIcoBlob],
    [handleConvert] and [handleFileSelect], and the properties of the icon
    container that [generateIcoBlob] writes; then the handlers of
    [FileUpload], the conditional parts of what [App] renders, and how a
    selection, a conversion and a drop behave as a whole.

    - JavaScript numbers that hold sizes, offsets and lengths are [Z].
    - An [ArrayBuffer] is a [list byte]; [DataView] and [Uint8Array] writes
      are range checked as in JavaScript and raise [RangeError].
    - A promise is the list of browser calls it made together with the way
      it settled ([inl] rejected, [inr] fulfilled).  [Promise.all] starts
      every promise it is given, so the calls of all of them are recorded
      even when one rejects.
    - The browser (canvas, PNG encoder, file reader, fetch, JSZip) is a
      record of functions, [Browser].
    - [canvas.width = size] stores [size]; what the DOM does with a size
      that is not positive is not modelled, and the callers pass 192, 512
      and the candidate sizes only.
    - When several promises of one [Promise.all] reject, the rejection
      reported is the first in list order; no statement below depends on
      which one it is. *)

From Stdlib Require Import String DecimalString ZArith List Lia Bool Sorted.
From coqutil Require Import Byte Word.LittleEndianList.
Import ListNotations.
Local Open Scope Z_scope.

(** ** Values *)

Record Blob := mkBlob { blob_bytes : list byte; blob_type : string }.

Record File := mkFile { file_name : string; file_type : string; file_data : list byte }.

(** [img.width], [img.height] and the data URL the image was loaded from. *)
Record HTMLImageElement := mkImage { width : Z; height : Z; src : string }.

Inductive SmoothingQuality := low | medium | high.

(** One [ctx.drawImage(img, dx, dy, dw, dh)] call. *)
Record DrawCall := mkDraw { d_img : HTMLImageElement; d_x : Z; d_y : Z; d_w : Z; d_h : Z }.

Record HTMLCanvasElement := mkCanvas {
  canvas_width : Z;
  canvas_height : Z;
  imageSmoothingEnabled : bool;
  imageSmoothingQuality : SmoothingQuality;
  drawn : list DrawCall
}.

Record Response := mkResponse { ok : bool; statusText : string; body : Blob }.

(** The errors the code throws, plus [RangeError] of [DataView] and
    [Uint8Array], plus an error raised by a collaborator with its message. *)
Inductive Error :=
| ImageTooSmall
| NoEligibleSizes
| NoCanvasContext
| BlobFailed (size : Z)
| LoadImageFailed
| ReadFileDataFailed
| ReadFileFailed
| ManifestFetchFailed (status : string)
| RangeError
| External (msg : string).

Notation "'Result' A" := (Error + A)%type (at level 10, A at level 9, only parsing).

(** ** The browser *)

Inductive ObjectURL :=
| UrlOfFile (f : File)
| UrlOfBlob (b : Blob).

Record Browser := mkBrowser {
  (** [canvas.getContext('2d')] is not null *)
  getContext2d : HTMLCanvasElement -> bool;
  (** [canvas.toBlob(cb, 'image/png')]: the bytes given to the callback, or null *)
  toBlob : HTMLCanvasElement -> option (list byte);
  (** [FileReader.readAsDataURL] followed by the image decode *)
  readAndDecode : File -> Result HTMLImageElement;
  (** [fetch('manifest.json')] *)
  fetchManifest : Result Response;
  (** [zip.generateAsync({type: "blob"})] on the files added so far *)
  generateAsync : list (string * Blob) -> Result Blob
}.

Inductive Event :=
| EvRevokeObjectURL (u : ObjectURL)
| EvCreateObjectURL (u : ObjectURL)
| EvReadAsDataURL (f : File)
| EvCreateCanvas
| EvGetContext (c : HTMLCanvasElement)
| EvDrawImage (d : DrawCall)
| EvToBlob (c : HTMLCanvasElement)
| EvFetch (url : string)
| EvZipFile (name : string) (b : Blob)
| EvZipGenerate.

(** ** Promises *)

Definition Promise (A : Type) : Type := (Result A * list Event)%type.

Definition resolve {A} (a : A) : Promise A := (inr a, []).
Definition reject {A} (e : Error) : Promise A := (inl e, []).
Definition call {A} (ev : Event) (r : Result A) : Promise A := (r, [ev]).
Definition emit (ev : Event) : Promise unit := (inr tt, [ev]).

(** [await p] followed by the rest of the async function. *)
Definition await {A B} (p : Promise A) (k : A -> Promise B) : Promise B :=
  match fst p with
  | inl e => (inl e, snd p)
  | inr a => (fst (k a), snd p ++ snd (k a))
  end.

Notation "x <- p ;; k" := (await p (fun x => k))
  (at level 61, p at next level, right associativity).
Notation "p ;;; k" := (await p (fun _ => k))
  (at level 61, right associativity).

(** [Promise.all]: every promise has been started; the result is the first
    rejection in list order, or all the values. *)
Fixpoint Promise_all {A} (ps : list (Promise A)) : Promise (list A) :=
  match ps with
  | [] => (inr [], [])
  | p :: rest =>
      let r := Promise_all rest in
      (match fst p, fst r with
       | inl e, _ => inl e
       | inr _, inl e => inl e
       | inr a, inr l => inr (a :: l)
       end, snd p ++ snd r)
  end.

(** ** ArrayBuffer, DataView, Uint8Array *)

Definition ArrayBuffer := list byte.

Definition byteLength (b : ArrayBuffer) : Z := Z.of_nat (length b).

Definition new_ArrayBuffer (n : Z) : ArrayBuffer := repeat Byte.x00 (Z.to_nat n).

(** Overwrite [bs] at byte offset [off]; out of range raises. *)
Definition write (buf : ArrayBuffer) (off : Z) (bs : list byte) : Result ArrayBuffer :=
  if (0 <=? off) && (off + byteLength bs <=? byteLength buf)
  then inr (firstn (Z.to_nat off) buf ++ bs ++ skipn (Z.to_nat off + length bs) buf)
  else inl RangeError.

Definition endian (littleEndian : bool) (bs : list byte) : list byte :=
  if littleEndian then bs else rev bs.

Definition setUint8 (buf : ArrayBuffer) (off v : Z) : Result ArrayBuffer :=
  write buf off [byte.of_Z v].
Definition setUint16 (buf : ArrayBuffer) (off v : Z) (littleEndian : bool) : Result ArrayBuffer :=
  write buf off (endian littleEndian (le_split 2 v)).
Definition setUint32 (buf : ArrayBuffer) (off v : Z) (littleEndian : bool) : Result ArrayBuffer :=
  write buf off (endian littleEndian (le_split 4 v)).

(** [new Uint8Array(buf, off, len).set(source)] *)
Definition Uint8Array_set (buf : ArrayBuffer) (off len : Z) (source : list byte) : Result ArrayBuffer :=
  if (0 <=? off) && (off + len <=? byteLength buf) && (byteLength source <=? len)
  then write buf off source
  else inl RangeError.

Definition bindR {A B} (r : Result A) (k : A -> Result B) : Result B :=
  match r with
  | inl e => inl e
  | inr a => k a
  end.

Notation "'try' x <- r ; k" := (bindR r (fun x => k))
  (at level 61, x name, r at next level, right associativity).

(** ** generatePngBlob *)

Definition newCanvas : HTMLCanvasElement :=
  {| canvas_width := 300; canvas_height := 150;
     imageSmoothingEnabled := true; imageSmoothingQuality := low; drawn := [] |}.

Definition generatePngBlob (env : Browser) (img : HTMLImageElement) (size : Z) : Promise Blob :=
  emit EvCreateCanvas ;;;
  let canvas := {| canvas_width := size; canvas_height := size;
                   imageSmoothingEnabled := imageSmoothingEnabled newCanvas;
                   imageSmoothingQuality := imageSmoothingQuality newCanvas;
                   drawn := drawn newCanvas |} in
  emit (EvGetContext canvas) ;;;
  if negb (getContext2d env canvas) then reject NoCanvasContext else
  let d := {| d_img := img; d_x := 0; d_y := 0; d_w := size; d_h := size |} in
  let canvas := {| canvas_width := canvas_width canvas; canvas_height := canvas_height canvas;
                   imageSmoothingEnabled := true;
                   imageSmoothingQuality := high;
                   drawn := drawn canvas ++ [d] |} in
  emit (EvDrawImage d) ;;;
  call (EvToBlob canvas)
       (match toBlob env canvas with
        | None => inl (BlobFailed size)
        | Some bytes => inr {| blob_bytes := bytes; blob_type := "image/png" |}
        end).

(** ** generateIcoBlob *)

Record ImageEntry := mkEntry { size : Z; buffer : ArrayBuffer }.

Definition standardSizes : list Z := [256; 128; 64; 48; 32; 16].

Definition sizes (img : HTMLImageElement) : list Z :=
  filter (fun s => (s <=? width img) && (s <=? height img)) standardSizes.

(** The promise made for one size by the [sizes.map] callback. *)
Definition pngPromise (env : Browser) (img : HTMLImageElement) (size : Z) : Promise ImageEntry :=
  blob <- generatePngBlob env img size ;;
  resolve {| size := size; buffer := blob_bytes blob |}.

Definition pngPromises (env : Browser) (img : HTMLImageElement) : list (Promise ImageEntry) :=
  map (pngPromise env img) (sizes img).

Definition headerSize : Z := 6.
Definition directorySize (imageEntries : list ImageEntry) : Z :=
  16 * Z.of_nat (length imageEntries).

(** [imageEntries.forEach(entry => totalSize += entry.buffer.byteLength)] *)
Definition totalSize (imageEntries : list ImageEntry) : Z :=
  fold_left (fun acc entry => acc + byteLength (buffer entry)) imageEntries
            (headerSize + directorySize imageEntries).

(** The body of the first [for] loop: the sixteen bytes of one directory row. *)
Definition writeEntry (entry : ImageEntry) (finalView : ArrayBuffer)
           (entryOffset fileOffset : Z) : Result ArrayBuffer :=
  let displaySize := if size entry =? 256 then 0 else size entry in
  try v <- setUint8 finalView entryOffset displaySize ;
  try v <- setUint8 v (entryOffset + 1) displaySize ;
  try v <- setUint8 v (entryOffset + 2) 0 ;
  try v <- setUint8 v (entryOffset + 3) 0 ;
  try v <- setUint16 v (entryOffset + 4) 0 true ;
  try v <- setUint16 v (entryOffset + 6) 0 true ;
  try v <- setUint32 v (entryOffset + 8) (byteLength (buffer entry)) true ;
  setUint32 v (entryOffset + 12) fileOffset true.

(** The first [for] loop, with its two running offsets. *)
Fixpoint writeDirectory (imageEntries : list ImageEntry) (finalView : ArrayBuffer)
         (entryOffset fileOffset : Z) : Result ArrayBuffer :=
  match imageEntries with
  | [] => inr finalView
  | entry :: rest =>
      try v <- writeEntry entry finalView entryOffset fileOffset ;
      writeDirectory rest v (entryOffset + 16) (fileOffset + byteLength (buffer entry))
  end.

(** The second [for] loop: the image data. *)
Fixpoint writeData (imageEntries : list ImageEntry) (finalBuffer : ArrayBuffer)
         (dataOffset : Z) : Result ArrayBuffer :=
  match imageEntries with
  | [] => inr finalBuffer
  | entry :: rest =>
      try b <- Uint8Array_set finalBuffer dataOffset (byteLength (buffer entry)) (buffer entry) ;
      writeData rest b (dataOffset + byteLength (buffer entry))
  end.

(** Everything after [await Promise.all(pngPromises)]. *)
Definition buildIco (imageEntries : list ImageEntry) : Result Blob :=
  let finalBuffer := new_ArrayBuffer (totalSize imageEntries) in
  let fileOffset := headerSize + directorySize imageEntries in
  try v <- setUint16 finalBuffer 0 0 true ;
  try v <- setUint16 v 2 1 true ;
  try v <- setUint16 v 4 (Z.of_nat (length imageEntries)) true ;
  try v <- writeDirectory imageEntries v headerSize fileOffset ;
  try v <- writeData imageEntries v (headerSize + directorySize imageEntries) ;
  inr {| blob_bytes := v; blob_type := "image/x-icon" |}.

Definition generateIcoBlob (env : Browser) (img : HTMLImageElement) : Promise Blob :=
  if (width img <? 16) || (height img <? 16) then reject ImageTooSmall else
  if (length (sizes img) =? 0)%nat then reject NoEligibleSizes else
  imageEntries <- Promise_all (pngPromises env img) ;;
  (buildIco imageEntries, []).

(** ** The component: state, handleConvert, handleFileSelect *)

Inductive Status := idle | converting | success | error.

Record AppState := mkState {
  pngFile : option File;
  zipBlobUrl : option ObjectURL;
  status : Status;
  errorText : option string
}.

(** [e.message] *)
Definition message (e : Error) : string :=
  match e with
  | ImageTooSmall => "Image too small. Please use an image that is at least 16x16 pixels."
  | NoEligibleSizes => "Could not determine appropriate icon sizes for the given image."
  | NoCanvasContext => "Could not get canvas context"
  | BlobFailed size =>
      let n := NilZero.string_of_int (Z.to_int size) in
      "Failed to create blob for size " ++ n ++ "x" ++ n
  | LoadImageFailed => "Failed to load image. The file might be corrupted."
  | ReadFileDataFailed => "Failed to read file data."
  | ReadFileFailed => "Failed to read the file."
  | ManifestFetchFailed s => "Failed to fetch manifest.json: " ++ s
  | RangeError => "Offset is outside the bounds of the DataView" (* the engine's text *)
  | External msg => msg
  end%string.

Definition loadImage (env : Browser) (file : File) : Promise HTMLImageElement :=
  call (EvReadAsDataURL file) (readAndDecode env file).

(** [Promise.all] on the four artifacts of [handleConvert]. *)
Definition Promise_all4 {A B C D} (pa : Promise A) (pb : Promise B) (pc : Promise C)
           (pd : Promise D) : Promise (A * B * C * D) :=
  (match fst pa, fst pb, fst pc, fst pd with
   | inl e, _, _, _ => inl e
   | _, inl e, _, _ => inl e
   | _, _, inl e, _ => inl e
   | _, _, _, inl e => inl e
   | inr a, inr b, inr c, inr d => inr (a, b, c, d)
   end, snd pa ++ snd pb ++ snd pc ++ snd pd).

(** The [try] block of [handleConvert]. *)
Definition convert (env : Browser) (file : File) : Promise ObjectURL :=
  img <- loadImage env file ;;
  blobs <- Promise_all4 (generateIcoBlob env img)
                        (generatePngBlob env img 192)
                        (generatePngBlob env img 512)
                        (call (EvFetch "manifest.json") (fetchManifest env)) ;;
  let '(icoBlob, png192Blob, png512Blob, manifestResponse) := blobs in
  if negb (ok manifestResponse)
  then reject (ManifestFetchFailed (statusText manifestResponse)) else
  let manifestBlob := body manifestResponse in
  let files := [("favicon.ico", icoBlob); ("192.png", png192Blob);
                ("512.png", png512Blob); ("manifest.json", manifestBlob)]%string in
  emit (EvZipFile "favicon.ico" icoBlob) ;;;
  emit (EvZipFile "192.png" png192Blob) ;;;
  emit (EvZipFile "512.png" png512Blob) ;;;
  emit (EvZipFile "manifest.json" manifestBlob) ;;;
  zipBlob <- call EvZipGenerate (generateAsync env files) ;;
  let url := UrlOfBlob zipBlob in
  emit (EvCreateObjectURL url) ;;;
  resolve url.

Definition handleConvert (env : Browser) (st : AppState) (file : File)
  : AppState * list Event :=
  let st := {| pngFile := pngFile st; zipBlobUrl := zipBlobUrl st;
               status := converting; errorText := None |} in
  let p := convert env file in
  (match fst p with
   | inr url =>
       {| pngFile := pngFile st; zipBlobUrl := Some url;
          status := success; errorText := errorText st |}
   | inl e =>
       {| pngFile := pngFile st; zipBlobUrl := zipBlobUrl st; status := error;
          errorText := Some (if String.eqb (message e) EmptyString
                             then "An unknown error occurred during conversion."%string
                             else message e) |}
   end, snd p).

(** [pngPreviewUrl], the memoised object URL of [pngFile]. *)
Definition pngPreviewUrl (st : AppState) : option ObjectURL :=
  option_map UrlOfFile (pngFile st).

Definition revoke (u : option ObjectURL) : list Event :=
  match u with
  | Some u => [EvRevokeObjectURL u]
  | None => []
  end.

Definition handleFileSelect (env : Browser) (st : AppState) (file : File)
  : AppState * list Event :=
  let cleanup := revoke (pngPreviewUrl st) ++ revoke (zipBlobUrl st) in
  let st := {| pngFile := pngFile st; zipBlobUrl := None;
               status := status st; errorText := None |} in
  if negb (String.eqb (file_type file) "image/png") then
    ({| pngFile := None; zipBlobUrl := zipBlobUrl st; status := error;
        errorText := Some "Invalid file type. Please upload a PNG file."%string |},
     cleanup)
  else
    let st := {| pngFile := Some file; zipBlobUrl := zipBlobUrl st;
                 status := status st; errorText := errorText st |} in
    let r := handleConvert env st file in
    (fst r, cleanup ++ snd r).

(** ** FileUpload: the handlers of the drop zone

    [e.target.files] and [e.dataTransfer.files] are null or a FileList.  A
    handler returns the file it passes to [onFileSelect], if any;
    [preventDefault] and [stopPropagation] leave no trace in the model. *)

Definition FileList := option (list File).

(** [files && files[0]] *)
Definition firstFile (files : FileList) : option File :=
  match files with
  | Some (f :: _) => Some f
  | _ => None
  end.

Definition handleFileChange (files : FileList) : option File := firstFile files.

(** The new [isDragging] and the file handed to [onFileSelect]. *)
Definition handleDrop (disabled : bool) (files : FileList) : bool * option File :=
  (false, if disabled then None else firstFile files).

(** The new [isDragging]. *)
Definition handleDragEvents (disabled isDragging isEntering : bool) : bool :=
  if negb disabled then isEntering else isDragging.

(** ** App: what is rendered, and the drop zone wired to the handlers *)

Definition Status_eqb (a b : Status) : bool :=
  match a, b with
  | idle, idle | converting, converting | success, success | error, error => true
  | _, _ => false
  end.

(** The conditional parts of the JSX that [App] returns. *)
Record View := mkView {
  (** [disabled] of [FileUpload] *)
  uploadDisabled : bool;
  (** the preview image and its [src] *)
  previewShown : option ObjectURL;
  (** the "Converting..." panel *)
  convertingShown : bool;
  (** the download button: [href] and [download] *)
  downloadShown : option (ObjectURL * string);
  (** the "Conversion Failed" panel and the text in it *)
  errorShown : option (option string)
}.

Definition render (st : AppState) : View :=
  {| uploadDisabled := Status_eqb (status st) converting;
     previewShown := pngPreviewUrl st;
     convertingShown := Status_eqb (status st) converting;
     downloadShown :=
       if Status_eqb (status st) success
       then option_map (fun u => (u, "icons.zip"%string)) (zipBlobUrl st)
       else None;
     errorShown := if Status_eqb (status st) error then Some (errorText st) else None |}.

(** The state that is rendered while [handleFileSelect] awaits the
    conversion of a PNG file: the state updates made before the first
    [await]. *)
Definition selectionStarted (st : AppState) (file : File) : AppState :=
  {| pngFile := Some file; zipBlobUrl := None; status := converting; errorText := None |}.

(** The component with its drop zone: the app state and [isDragging]. *)
Record UI := mkUI { appState : AppState; isDragging : bool }.

(** [onDrop] of the drop zone, with [onFileSelect={handleFileSelect}] and
    [disabled={status === 'converting'}]. *)
Definition onDrop (env : Browser) (ui : UI) (files : FileList) : UI * list Event :=
  let r := handleDrop (uploadDisabled (render (appState ui))) files in
  match snd r with
  | Some file =>
      let r' := handleFileSelect env (appState ui) file in
      ({| appState := fst r'; isDragging := fst r |}, snd r')
  | None => ({| appState := appState ui; isDragging := fst r |}, [])
  end.

(** [onChange] of the file input. *)
Definition onChange (env : Browser) (ui : UI) (files : FileList) : UI * list Event :=
  match handleFileChange files with
  | Some file =>
      let r' := handleFileSelect env (appState ui) file in
      ({| appState := fst r'; isDragging := isDragging ui |}, snd r')
  | None => (ui, [])
  end.

(** [onDragOver], [onDragEnter] (entering) and [onDragLeave] (not entering). *)
Definition onDrag (ui : UI) (isEntering : bool) : UI :=
  {| appState := appState ui;
     isDragging := handleDragEvents (uploadDisabled (render (appState ui))) (isDragging ui)
                                    isEntering |}.

(** The canvas widths of the [getContext] calls in a log, one per canvas
    the code made. *)
Fixpoint contextSizes (log : list Event) : list Z :=
  match log with
  | [] => []
  | EvGetContext c :: rest => canvas_width c :: contextSizes rest
  | _ :: rest => contextSizes rest
  end.

(** The text [handleConvert] shows for an error: [e.message || "An unknown..."]. *)
Definition shownMessage (e : Error) : string :=
  if String.eqb (message e) EmptyString
  then "An unknown error occurred during conversion."%string
  else message e.

(** The object URLs a log creates. *)
Fixpoint createdUrls (log : list Event) : list ObjectURL :=
  match log with
  | [] => []
  | EvCreateObjectURL u :: rest => u :: createdUrls rest
  | _ :: rest => createdUrls rest
  end.

(** The four [zip.file] calls of [handleConvert], then [generateAsync]. *)
Definition zipCalls (icoBlob png192Blob png512Blob manifestBlob : Blob) : list Event :=
  [EvZipFile "favicon.ico" icoBlob; EvZipFile "192.png" png192Blob;
   EvZipFile "512.png" png512Blob; EvZipFile "manifest.json" manifestBlob;
   EvZipGenerate].

Definition zipFiles (icoBlob png192Blob png512Blob manifestBlob : Blob)
  : list (string * Blob) :=
  [("favicon.ico", icoBlob); ("192.png", png192Blob);
   ("512.png", png512Blob); ("manifest.json", manifestBlob)]%string.

(** The browser calls [handleConvert] has made once the image is decoded
    and the four productions are started. *)
Definition startedCalls (env : Browser) (file : File) (img : HTMLImageElement) : list Event :=
  [EvReadAsDataURL file]
  ++ snd (generateIcoBlob env img)
  ++ snd (generatePngBlob env img 192)
  ++ snd (generatePngBlob env img 512)
  ++ [EvFetch "manifest.json"].

(** ** The container as a concatenation

    [icoBytes] is the layout the format prescribes: header, directory rows,
    image data.  [buildIco_layout] below shows that the in-place writes of
    [buildIco] produce it. *)

Definition displaySize (s : Z) : Z := if s =? 256 then 0 else s.

Definition dirRow (entry : ImageEntry) (fileOffset : Z) : list byte :=
  [byte.of_Z (displaySize (size entry)); byte.of_Z (displaySize (size entry));
   byte.of_Z 0; byte.of_Z 0]
  ++ le_split 2 0 ++ le_split 2 0
  ++ le_split 4 (byteLength (buffer entry)) ++ le_split 4 fileOffset.

Fixpoint directoryBytes (imageEntries : list ImageEntry) (fileOffset : Z) : list byte :=
  match imageEntries with
  | [] => []
  | entry :: rest =>
      dirRow entry fileOffset ++ directoryBytes rest (fileOffset + byteLength (buffer entry))
  end.

Definition dataBytes (imageEntries : list ImageEntry) : list byte :=
  concat (map buffer imageEntries).

Definition headerBytes (imageEntries : list ImageEntry) : list byte :=
  le_split 2 0 ++ le_split 2 1 ++ le_split 2 (Z.of_nat (length imageEntries)).

Definition icoBytes (imageEntries : list ImageEntry) : list byte :=
  headerBytes imageEntries
  ++ directoryBytes imageEntries (headerSize + directorySize imageEntries)
  ++ dataBytes imageEntries.

(** ** Reading a container back

    Written from the format description: a 6-byte header, then [imageCount]
    rows of 16 bytes. *)

Record IconDirectoryEntry := mkDirEntry {
  width_byte : Z;
  height_byte : Z;
  colorCount : Z;
  reserved : Z;
  colorPlanes : Z;
  bitsPerPixel : Z;
  dataSize : Z;
  dataOffset : Z
}.

Definition slice (bs : list byte) (off len : Z) : list byte :=
  firstn (Z.to_nat len) (skipn (Z.to_nat off) bs).

(** Little-endian unsigned read of [n] bytes at [off]; [None] out of range. *)
Definition getUint (n : nat) (bs : list byte) (off : Z) : option Z :=
  if (0 <=? off) && (off + Z.of_nat n <=? byteLength bs)
  then Some (le_combine (slice bs off (Z.of_nat n)))
  else None.

Definition getUint8 := getUint 1.
Definition getUint16 := getUint 2.
Definition getUint32 := getUint 4.

Definition bindO {A B} (o : option A) (k : A -> option B) : option B :=
  match o with
  | Some a => k a
  | None => None
  end.

Notation "'get' x <- o ; k" := (bindO o (fun x => k))
  (at level 61, x name, o at next level, right associativity).

Definition parseRow (bs : list byte) (off : Z) : option IconDirectoryEntry :=
  get w <- getUint8 bs off ;
  get h <- getUint8 bs (off + 1) ;
  get c <- getUint8 bs (off + 2) ;
  get r <- getUint8 bs (off + 3) ;
  get p <- getUint16 bs (off + 4) ;
  get b <- getUint16 bs (off + 6) ;
  get s <- getUint32 bs (off + 8) ;
  get o <- getUint32 bs (off + 12) ;
  Some {| width_byte := w; height_byte := h; colorCount := c; reserved := r;
          colorPlanes := p; bitsPerPixel := b; dataSize := s; dataOffset := o |}.

Fixpoint parseDirectory (count : nat) (bs : list byte) (off : Z)
  : option (list IconDirectoryEntry) :=
  match count with
  | O => Some []
  | S n =>
      get row <- parseRow bs off ;
      get rows <- parseDirectory n bs (off + 16) ;
      Some (row :: rows)
  end.

Record IconFile := mkIconFile {
  header_reserved : Z;
  imageType : Z;
  imageCount : Z;
  directory : list IconDirectoryEntry
}.

Definition parseIco (bs : list byte) : option IconFile :=
  get r <- getUint16 bs 0 ;
  get t <- getUint16 bs 2 ;
  get n <- getUint16 bs 4 ;
  get rows <- parseDirectory (Z.to_nat n) bs 6 ;
  Some {| header_reserved := r; imageType := t; imageCount := n; directory := rows |}.

(** The dimension a row declares: a zero byte stands for 256. *)
Definition entrySize (e : IconDirectoryEntry) : Z :=
  if width_byte e =? 0 then 256 else width_byte e.

(** The image data a row points at. *)
Definition payload (bs : list byte) (e : IconDirectoryEntry) : list byte :=
  slice bs (dataOffset e) (dataSize e).

(** The row [parseRow] reads where [writeEntry] wrote. *)
Definition rowOf (entry : ImageEntry) (fileOffset : Z) : IconDirectoryEntry :=
  {| width_byte := displaySize (size entry) mod 2 ^ 8;
     height_byte := displaySize (size entry) mod 2 ^ 8;
     colorCount := 0; reserved := 0; colorPlanes := 0; bitsPerPixel := 0;
     dataSize := byteLength (buffer entry) mod 2 ^ 32;
     dataOffset := fileOffset mod 2 ^ 32 |}.

Fixpoint rowsOf (imageEntries : list ImageEntry) (fileOffset : Z) : list IconDirectoryEntry :=
  match imageEntries with
  | [] => []
  | entry :: rest =>
      rowOf entry fileOffset :: rowsOf rest (fileOffset + byteLength (buffer entry))
  end.

(** The sum of a list of lengths. *)
Definition sumZ (l : list Z) : Z := fold_right Z.add 0 l.

(** The canvas on which [generatePngBlob] asks for a 2D context. *)
Definition blankCanvas (size : Z) : HTMLCanvasElement :=
  {| canvas_width := size; canvas_height := size;
     imageSmoothingEnabled := true; imageSmoothingQuality := low; drawn := [] |}.

(** The canvas [generatePngBlob] hands to the encoder for [img] and [size]. *)
Definition drawnCanvas (img : HTMLImageElement) (size : Z) : HTMLCanvasElement :=
  {| canvas_width := size; canvas_height := size;
     imageSmoothingEnabled := true; imageSmoothingQuality := high;
     drawn := [{| d_img := img; d_x := 0; d_y := 0; d_w := size; d_h := size |}] |}.

(** [entry] is what the promise of [pngPromises] for size [s] resolves to. *)
Definition encoded (env : Browser) (img : HTMLImageElement) (s : Z) (entry : ImageEntry) : Prop :=
  size entry = s /\
  getContext2d env (blankCanvas s) = true /\
  toBlob env (drawnCanvas img s) = Some (buffer entry).

(** The [dw] of every [drawImage] call in a log. *)
Fixpoint drawnSizes (log : list Event) : list Z :=
  match log with
  | [] => []
  | EvDrawImage d :: rest => d_w d :: drawnSizes rest
  | _ :: rest => drawnSizes rest
  end.

(** A log in which no file is read, nothing is drawn or encoded, nothing is
    fetched and nothing is zipped. *)
Definition quiet (ev : Event) : bool :=
  match ev with
  | EvRevokeObjectURL _ => true
  | _ => false
  end.

(** ** Sample inputs *)

Definition pngSignature : list byte :=
  [Byte.x89; Byte.x50; Byte.x4e; Byte.x47; Byte.x0d; Byte.x0a; Byte.x1a; Byte.x0a].

(** A browser in which every call succeeds; the encoder output is the PNG
    signature followed by the canvas width. *)
Definition sampleBrowser : Browser :=
  {| getContext2d := fun _ => true;
     toBlob := fun c => Some (pngSignature ++ le_split 4 (canvas_width c));
     readAndDecode := fun f => inr {| width := 300; height := 50; src := file_name f |};
     fetchManifest :=
       inr {| ok := true; statusText := "OK";
              body := {| blob_bytes := []; blob_type := "application/json" |} |};
     generateAsync :=
       fun files => inr {| blob_bytes := concat (map (fun f => blob_bytes (snd f)) files);
                           blob_type := "application/zip" |} |}.

(** The same browser without a 2D canvas context. *)
Definition headlessBrowser : Browser :=
  {| getContext2d := fun _ => false;
     toBlob := toBlob sampleBrowser;
     readAndDecode := readAndDecode sampleBrowser;
     fetchManifest := fetchManifest sampleBrowser;
     generateAsync := generateAsync sampleBrowser |}.

Definition sampleImage : HTMLImageElement :=
  {| width := 300; height := 50; src := "logo.png" |}.

Definition tinyImage : HTMLImageElement :=
  {| width := 15; height := 15; src := "tiny.png" |}.

Definition sampleIco : Blob :=
  Eval vm_compute in
    match fst (generateIcoBlob sampleBrowser sampleImage) with
    | inr b => b
    | inl _ => {| blob_bytes := []; blob_type := EmptyString |}
    end.

Definition sampleLog : list Event :=
  Eval vm_compute in snd (generateIcoBlob sampleBrowser sampleImage).

Definition squareImage : HTMLImageElement :=
  {| width := 512; height := 512; src := "icon.png" |}.

Definition smallImage : HTMLImageElement :=
  {| width := 20; height := 20; src := "small.png" |}.

Definition logoFile : File :=
  {| file_name := "logo.png"; file_type := "image/png"; file_data := pngSignature |}.

Definition textFile : File :=
  {| file_name := "notes.txt"; file_type := "text/plain"; file_data := [] |}.

Definition initialState : AppState :=
  {| pngFile := None; zipBlobUrl := None; status := idle; errorText := None |}.

(** A browser whose manifest request answers 404. *)
Definition notFoundBrowser : Browser :=
  {| getContext2d := getContext2d sampleBrowser;
     toBlob := toBlob sampleBrowser;
     readAndDecode := readAndDecode sampleBrowser;
     fetchManifest :=
       inr {| ok := false; statusText := "Not Found";
              body := {| blob_bytes := []; blob_type := "text/html" |} |};
     generateAsync := generateAsync sampleBrowser |}.

(** A browser that cannot decode the file. *)
Definition corruptBrowser : Browser :=
  {| getContext2d := getContext2d sampleBrowser;
     toBlob := toBlob sampleBrowser;
     readAndDecode := fun _ => inl LoadImageFailed;
     fetchManifest := fetchManifest sampleBrowser;
     generateAsync := generateAsync sampleBrowser |}.

(** A browser that decodes every file as a 15 by 15 image. *)
Definition tinyBrowser : Browser :=
  {| getContext2d := getContext2d sampleBrowser;
     toBlob := toBlob sampleBrowser;
     readAndDecode := fun _ => inr tinyImage;
     fetchManifest := fetchManifest sampleBrowser;
     generateAsync := generateAsync sampleBrowser |}.

Definition sampleEntries : list ImageEntry :=
  [{| size := 32; buffer := pngSignature |}; {| size := 16; buffer := [Byte.x00] |}].

(** The state after [logoFile] was converted by [sampleBrowser]. *)
Definition convertedState : AppState :=
  Eval vm_compute in fst (handleFileSelect sampleBrowser initialState logoFile).


(** ** Lists and writes *)

Lemma firstn_prefix {A} (pre l : list A) (k : nat) :
  firstn (length pre + k) (pre ++ l) = pre ++ firstn k l.
Proof.
  induction pre as [|a pre IH]; simpl; [reflexivity | now rewrite IH].
Qed.

Lemma skipn_prefix {A} (pre l : list A) (k : nat) :
  skipn (length pre + k) (pre ++ l) = skipn k l.
Proof.
  induction pre as [|a pre IH]; simpl; [reflexivity | exact IH].
Qed.

(** A write that lands [k] bytes after a prefix only touches what follows. *)
Lemma write_off (pre l : list byte) (off k : Z) (bs : list byte) :
  off = Z.of_nat (length pre) ->
  0 <= k ->
  (Z.to_nat k + length bs <= length l)%nat ->
  write (pre ++ l) (off + k) bs =
  inr (pre ++ firstn (Z.to_nat k) l ++ bs ++ skipn (Z.to_nat k + length bs) l).
Proof.
  intros -> Hk Hlen. unfold write, byteLength.
  rewrite length_app.
  replace ((0 <=? Z.of_nat (length pre) + k) &&
           (Z.of_nat (length pre) + k + Z.of_nat (length bs)
            <=? Z.of_nat (length pre + length l))) with true
    by (symmetry; apply andb_true_intro; split; apply Z.leb_le; lia).
  replace (Z.to_nat (Z.of_nat (length pre) + k)) with (length pre + Z.to_nat k)%nat by lia.
  rewrite firstn_prefix, <- Nat.add_assoc, skipn_prefix, <- app_assoc.
  reflexivity.
Qed.

Lemma write_here (pre l : list byte) (off : Z) (bs : list byte) :
  off = Z.of_nat (length pre) ->
  (length bs <= length l)%nat ->
  write (pre ++ l) off bs = inr (pre ++ bs ++ skipn (length bs) l).
Proof.
  intros Hoff Hlen.
  rewrite <- (Z.add_0_r off).
  rewrite (write_off pre l off 0 bs Hoff) by (simpl; lia).
  reflexivity.
Qed.

Lemma write_abs (l : list byte) (k : Z) (bs : list byte) :
  0 <= k ->
  (Z.to_nat k + length bs <= length l)%nat ->
  write l k bs = inr (firstn (Z.to_nat k) l ++ bs ++ skipn (Z.to_nat k + length bs) l).
Proof. intros Hk Hlen. exact (write_off [] l 0 k bs eq_refl Hk Hlen). Qed.

(** Turn [Z.to_nat] of a literal into the [nat] literal. *)
Ltac to_nat_literals :=
  repeat match goal with
         | |- context [Z.to_nat (Zpos ?p)] =>
             let n := eval compute in (Z.to_nat (Zpos p)) in
             change (Z.to_nat (Zpos p)) with n
         end.

Lemma length_dirRow entry fo : length (dirRow entry fo) = 16%nat.
Proof. reflexivity. Qed.

(** The eight writes of one loop iteration fill the sixteen zero bytes that
    follow [pre] with [dirRow]. *)
Lemma writeEntry_ok (pre post : list byte) (entry : ImageEntry) (eo fo : Z) :
  eo = Z.of_nat (length pre) ->
  writeEntry entry (pre ++ repeat Byte.x00 16 ++ post) eo fo =
  inr (pre ++ dirRow entry fo ++ post).
Proof.
  intros Heo. unfold writeEntry, setUint8, setUint16, setUint32, endian.
  fold (displaySize (size entry)). cbv [le_split].
  rewrite (write_here pre _ eo _ Heo) by (simpl; lia).
  cbn [bindR length skipn repeat app].
  do 7 (rewrite (write_off pre _ eo _ _ Heo) by (cbn [length]; lia);
        to_nat_literals;
        cbn [bindR length skipn firstn repeat app le_split Nat.add]).
  reflexivity.
Qed.

Lemma length_directoryBytes es fo :
  length (directoryBytes es fo) = (16 * length es)%nat.
Proof.
  revert fo. induction es as [|e es IH]; intros fo; [reflexivity|].
  cbn [directoryBytes]. rewrite length_app, length_dirRow, IH. simpl length. lia.
Qed.

Lemma length_dataBytes_cons e es :
  length (dataBytes (e :: es)) = (length (buffer e) + length (dataBytes es))%nat.
Proof. unfold dataBytes. simpl. now rewrite length_app. Qed.

(** The first loop fills the directory region: invariant of the loop, with
    the rows written so far folded into [pre]. *)
Lemma writeDirectory_ok (es : list ImageEntry) :
  forall (pre post : list byte) (eo fo : Z),
    eo = Z.of_nat (length pre) ->
    writeDirectory es (pre ++ repeat Byte.x00 (16 * length es) ++ post) eo fo =
    inr (pre ++ directoryBytes es fo ++ post).
Proof.
  induction es as [|e es IH]; intros pre post eo fo Heo.
  - reflexivity.
  - cbn [writeDirectory directoryBytes].
    replace (16 * length (e :: es))%nat with (16 + 16 * length es)%nat
      by (simpl length; lia).
    rewrite repeat_app, <- app_assoc.
    rewrite (writeEntry_ok pre _ e eo fo Heo).
    cbn [bindR].
    rewrite (app_assoc pre (dirRow e fo)).
    rewrite IH by (rewrite length_app, length_dirRow; lia).
    now rewrite <- !app_assoc.
Qed.

(** The second loop copies every buffer behind the previous one. *)
Lemma writeData_ok (es : list ImageEntry) :
  forall (pre post : list byte) (off : Z),
    off = Z.of_nat (length pre) ->
    writeData es (pre ++ repeat Byte.x00 (length (dataBytes es)) ++ post) off =
    inr (pre ++ dataBytes es ++ post).
Proof.
  induction es as [|e es IH]; intros pre post off Hoff.
  - reflexivity.
  - cbn [writeData]. unfold Uint8Array_set.
    rewrite length_dataBytes_cons, repeat_app, <- app_assoc.
    replace ((0 <=? off) && (off + byteLength (buffer e) <=? byteLength _)
             && (byteLength (buffer e) <=? byteLength (buffer e))) with true.
    2:{ symmetry. unfold byteLength. rewrite !length_app, repeat_length.
        repeat (apply andb_true_intro; split); apply Z.leb_le; lia. }
    rewrite (write_here pre _ off _ Hoff)
      by (rewrite length_app, repeat_length; lia).
    cbn [bindR].
    rewrite skipn_app, repeat_length, Nat.sub_diag, skipn_all2
      by (rewrite repeat_length; lia).
    cbn [skipn app].
    rewrite (app_assoc pre (buffer e)).
    rewrite IH by (unfold byteLength; rewrite length_app; lia).
    unfold dataBytes. cbn [map concat]. now rewrite <- !app_assoc.
Qed.

Lemma fold_left_byteLength (es : list ImageEntry) (acc : Z) :
  fold_left (fun acc entry => acc + byteLength (buffer entry)) es acc =
  acc + Z.of_nat (length (dataBytes es)).
Proof.
  revert acc. induction es as [|e es IH]; intros acc.
  - simpl. lia.
  - cbn [fold_left]. rewrite IH, length_dataBytes_cons. unfold byteLength. lia.
Qed.

Lemma totalSize_sum (es : list ImageEntry) :
  totalSize es = 6 + 16 * Z.of_nat (length es) + Z.of_nat (length (dataBytes es)).
Proof. unfold totalSize. rewrite fold_left_byteLength. reflexivity. Qed.

(** The writes of [buildIco] never leave the buffer, and what they leave in
    it is header, directory and data, one after the other. *)
Lemma buildIco_layout (es : list ImageEntry) :
  buildIco es = inr {| blob_bytes := icoBytes es; blob_type := "image/x-icon" |}.
Proof.
  unfold buildIco, new_ArrayBuffer. rewrite totalSize_sum.
  replace (Z.to_nat (6 + 16 * Z.of_nat (length es) + Z.of_nat (length (dataBytes es))))
    with (6 + (16 * length es + length (dataBytes es)))%nat by lia.
  rewrite !repeat_app.
  unfold setUint16, endian. cbv [le_split].
  do 3 (rewrite write_abs by (cbn [length app repeat Z.to_nat]; lia);
        to_nat_literals; cbn [bindR length skipn firstn repeat app Nat.add Z.to_nat]).
  match goal with
  | |- context [writeDirectory es (?a :: ?b :: ?c :: ?d :: ?e :: ?f :: ?rest)] =>
      change (a :: b :: c :: d :: e :: f :: rest) with ([a; b; c; d; e; f] ++ rest)
  end.
  rewrite writeDirectory_ok by reflexivity.
  cbn [bindR].
  rewrite (app_assoc _ (directoryBytes es _)).
  rewrite <- (app_nil_r (repeat Byte.x00 (length (dataBytes es)))).
  rewrite writeData_ok.
  2:{ rewrite length_app, length_directoryBytes. unfold headerSize, directorySize.
      cbn [length]. lia. }
  cbn [bindR]. rewrite app_nil_r. unfold icoBytes, headerBytes.
  rewrite <- app_assoc. reflexivity.
Qed.

(** ** Reading the layout back *)

Lemma getUint_off (n : nat) (pre l : list byte) (off k : Z) :
  off = Z.of_nat (length pre) ->
  0 <= k ->
  (Z.to_nat k + n <= length l)%nat ->
  getUint n (pre ++ l) (off + k) = Some (le_combine (firstn n (skipn (Z.to_nat k) l))).
Proof.
  intros -> Hk Hlen. unfold getUint, slice, byteLength.
  rewrite length_app.
  replace ((0 <=? Z.of_nat (length pre) + k) &&
           (Z.of_nat (length pre) + k + Z.of_nat n
            <=? Z.of_nat (length pre + length l))) with true
    by (symmetry; apply andb_true_intro; split; apply Z.leb_le; lia).
  replace (Z.to_nat (Z.of_nat (length pre) + k)) with (length pre + Z.to_nat k)%nat by lia.
  now rewrite skipn_prefix, Nat2Z.id.
Qed.

Lemma getUint_abs (n : nat) (l : list byte) (k : Z) :
  0 <= k ->
  (Z.to_nat k + n <= length l)%nat ->
  getUint n l k = Some (le_combine (firstn n (skipn (Z.to_nat k) l))).
Proof. intros Hk Hlen. exact (getUint_off n [] l 0 k eq_refl Hk Hlen). Qed.

Lemma parseRow_dirRow (pre post : list byte) (entry : ImageEntry) (off fo : Z) :
  off = Z.of_nat (length pre) ->
  parseRow (pre ++ dirRow entry fo ++ post) off = Some (rowOf entry fo).
Proof.
  intros Hoff. unfold parseRow, getUint8, getUint16, getUint32.
  rewrite <- (Z.add_0_r off) at 1.
  rewrite !(getUint_off _ pre _ off _ Hoff)
    by (try lia; rewrite length_app, length_dirRow; simpl Z.to_nat; lia).
  to_nat_literals. cbn [bindO Z.to_nat].
  unfold dirRow. cbv [le_split]. cbn [app skipn firstn].
  rewrite !le_combine_1, !byte.unsigned_of_Z.
  change [byte.of_Z 0; byte.of_Z (Z.shiftr 0 8)] with (le_split 2 0).
  change [byte.of_Z ?v; byte.of_Z (Z.shiftr ?v 8);
          byte.of_Z (Z.shiftr (Z.shiftr ?v 8) 8);
          byte.of_Z (Z.shiftr (Z.shiftr (Z.shiftr ?v 8) 8) 8)] with (le_split 4 v).
  rewrite !le_combine_split.
  reflexivity.
Qed.

Lemma length_rowsOf es fo : length (rowsOf es fo) = length es.
Proof.
  revert fo. induction es as [|e es IH]; intros fo; simpl; [reflexivity | now rewrite IH].
Qed.

Lemma parseDirectory_directoryBytes (es : list ImageEntry) :
  forall (pre post : list byte) (off fo : Z),
    off = Z.of_nat (length pre) ->
    parseDirectory (length es) (pre ++ directoryBytes es fo ++ post) off =
    Some (rowsOf es fo).
Proof.
  induction es as [|e es IH]; intros pre post off fo Hoff.
  - reflexivity.
  - cbn [length parseDirectory directoryBytes rowsOf].
    rewrite <- app_assoc.
    rewrite (parseRow_dirRow pre _ e off fo Hoff).
    cbn [bindO].
    rewrite (app_assoc pre (dirRow e fo)).
    rewrite IH by (rewrite length_app, length_dirRow; lia).
    reflexivity.
Qed.

(** Reading back what [buildIco] wrote, for a directory that fits the
    16-bit count. *)
Lemma parseIco_icoBytes (es : list ImageEntry) :
  Z.of_nat (length es) < 2 ^ 16 ->
  parseIco (icoBytes es) =
  Some {| header_reserved := 0; imageType := 1;
          imageCount := Z.of_nat (length es);
          directory := rowsOf es (headerSize + directorySize es) |}.
Proof.
  intros Hn. unfold parseIco, getUint16, icoBytes, headerBytes.
  cbv [le_split]. cbn [app].
  rewrite !getUint_abs by (try lia; cbn [length]; simpl Z.to_nat; lia).
  to_nat_literals. cbn [Z.to_nat skipn firstn bindO].
  change [byte.of_Z 0; byte.of_Z (Z.shiftr 0 8)] with (le_split 2 0).
  change [byte.of_Z 1; byte.of_Z (Z.shiftr 1 8)] with (le_split 2 1).
  change [byte.of_Z (Z.of_nat (length es)); byte.of_Z (Z.shiftr (Z.of_nat (length es)) 8)]
    with (le_split 2 (Z.of_nat (length es))).
  rewrite !le_combine_split.
  change (0 mod 2 ^ (Z.of_nat 2 * 8)) with 0.
  change (1 mod 2 ^ (Z.of_nat 2 * 8)) with 1.
  rewrite (Z.mod_small (Z.of_nat (length es))) by (change (Z.of_nat 2 * 8) with 16; lia).
  cbn [bindO]. rewrite Nat2Z.id.
  match goal with
  | |- context [parseDirectory _ (?a :: ?b :: ?c :: ?d :: ?e :: ?f :: ?rest)] =>
      change (a :: b :: c :: d :: e :: f :: rest) with ([a; b; c; d; e; f] ++ rest)
  end.
  rewrite parseDirectory_directoryBytes by reflexivity.
  reflexivity.
Qed.

Lemma rowsOf_nth (es : list ImageEntry) :
  forall (fo : Z) (i : nat) (e : ImageEntry),
    nth_error es i = Some e ->
    nth_error (rowsOf es fo) i =
    Some (rowOf e (fo + Z.of_nat (length (dataBytes (firstn i es))))).
Proof.
  induction es as [|a es IH]; intros fo i e Hi.
  - destruct i; discriminate.
  - destruct i as [|i].
    + injection Hi as ->. cbn. now rewrite Z.add_0_r.
    + cbn [nth_error rowsOf firstn] in *.
      rewrite (IH _ _ _ Hi), length_dataBytes_cons.
      unfold byteLength. do 2 f_equal. lia.
Qed.

Lemma dataBytes_split (es : list ImageEntry) :
  forall (i : nat) (e : ImageEntry),
    nth_error es i = Some e ->
    dataBytes es = dataBytes (firstn i es) ++ buffer e ++ dataBytes (skipn (S i) es).
Proof.
  induction es as [|a es IH]; intros i e Hi.
  - destruct i; discriminate.
  - destruct i as [|i].
    + injection Hi as ->. reflexivity.
    + cbn [nth_error] in Hi. unfold dataBytes in *.
      cbn [firstn skipn map concat]. rewrite (IH _ _ Hi) at 1.
      now rewrite <- app_assoc.
Qed.

Lemma slice_mid (pre mid post : list byte) (off len : Z) :
  off = Z.of_nat (length pre) ->
  len = Z.of_nat (length mid) ->
  slice (pre ++ mid ++ post) off len = mid.
Proof.
  intros -> ->. unfold slice. rewrite !Nat2Z.id.
  rewrite <- (Nat.add_0_r (length pre)), skipn_prefix. cbn [skipn].
  rewrite <- (Nat.add_0_r (length mid)), firstn_prefix. cbn [firstn].
  apply app_nil_r.
Qed.

(** A parsed directory is the sequence of rows found every sixteen bytes. *)
Lemma parseDirectory_nth (n : nat) :
  forall (bs : list byte) (off : Z) (rows : list IconDirectoryEntry),
    parseDirectory n bs off = Some rows ->
    length rows = n /\
    forall i row, nth_error rows i = Some row ->
                  parseRow bs (off + 16 * Z.of_nat i) = Some row.
Proof.
  induction n as [|n IH]; intros bs off rows H.
  - injection H as <-. split; [reflexivity|]. intros [|i] row Hr; discriminate.
  - cbn [parseDirectory] in H.
    destruct (parseRow bs off) as [r|] eqn:Hrow; [|discriminate].
    cbn [bindO] in H.
    destruct (parseDirectory n bs (off + 16)) as [rs|] eqn:Hrest; [|discriminate].
    injection H as <-. destruct (IH _ _ _ Hrest) as [Hlen Hnth].
    split; [simpl; now rewrite Hlen|].
    intros [|i] row Hr.
    + injection Hr as <-. now rewrite Z.mul_0_r, Z.add_0_r.
    + cbn [nth_error] in Hr. rewrite <- (Hnth _ _ Hr). f_equal. lia.
Qed.

Lemma Forall2_of_nth {A B} (P : A -> B -> Prop) (l1 : list A) :
  forall l2 : list B,
    length l1 = length l2 ->
    (forall i a b, nth_error l1 i = Some a -> nth_error l2 i = Some b -> P a b) ->
    Forall2 P l1 l2.
Proof.
  induction l1 as [|a l1 IH]; intros [|b l2] Hlen H; try discriminate.
  - constructor.
  - constructor.
    + exact (H 0%nat a b eq_refl eq_refl).
    + apply IH; [simpl in Hlen; lia|].
      intros i x y Hx Hy. exact (H (S i) x y Hx Hy).
Qed.

Lemma Forall2_nth {A B} (P : A -> B -> Prop) (l1 : list A) (l2 : list B) :
  Forall2 P l1 l2 ->
  forall i a, nth_error l1 i = Some a -> exists b, nth_error l2 i = Some b /\ P a b.
Proof.
  induction 1 as [|x y l1 l2 Hxy _ IH]; intros [|i] a Ha; try discriminate.
  - injection Ha as <-. exists y. now split.
  - exact (IH i a Ha).
Qed.

Lemma length_icoBytes (es : list ImageEntry) :
  byteLength (icoBytes es) =
  6 + 16 * Z.of_nat (length es) + Z.of_nat (length (dataBytes es)).
Proof.
  unfold byteLength, icoBytes, headerBytes.
  rewrite !length_app, !length_le_split, length_directoryBytes. lia.
Qed.

(** The data a row of [rowsOf] points at is the buffer of its entry, as long
    as offsets fit 32 bits. *)
Lemma payload_rowOf (es : list ImageEntry) (i : nat) (e : ImageEntry) :
  nth_error es i = Some e ->
  byteLength (icoBytes es) < 2 ^ 32 ->
  payload (icoBytes es)
          (rowOf e (headerSize + directorySize es
                    + Z.of_nat (length (dataBytes (firstn i es))))) = buffer e.
Proof.
  intros Hi Hlen. pose proof (dataBytes_split es i e Hi) as Hsplit.
  rewrite length_icoBytes in Hlen.
  assert (Hd : length (dataBytes es) =
               (length (dataBytes (firstn i es)) + (length (buffer e)
                + length (dataBytes (skipn (S i) es))))%nat)
    by (rewrite Hsplit at 1; now rewrite !length_app).
  unfold payload, rowOf, headerSize, directorySize, byteLength.
  cbn [dataOffset dataSize].
  rewrite !Z.mod_small by lia.
  unfold icoBytes. rewrite Hsplit.
  rewrite !app_assoc, <- app_assoc.
  apply slice_mid; [|reflexivity].
  unfold headerBytes.
  rewrite !length_app, !length_le_split, length_directoryBytes. lia.
Qed.

(** ** Promises of the icon pipeline *)

Lemma generatePngBlob_unfold (env : Browser) (img : HTMLImageElement) (size : Z) :
  generatePngBlob env img size =
  if getContext2d env (blankCanvas size)
  then (match toBlob env (drawnCanvas img size) with
        | None => inl (BlobFailed size)
        | Some bytes => inr {| blob_bytes := bytes; blob_type := "image/png" |}
        end,
        [EvCreateCanvas; EvGetContext (blankCanvas size);
         EvDrawImage {| d_img := img; d_x := 0; d_y := 0; d_w := size; d_h := size |};
         EvToBlob (drawnCanvas img size)])
  else (inl NoCanvasContext, [EvCreateCanvas; EvGetContext (blankCanvas size)]).
Proof.
  unfold generatePngBlob, await, emit, reject, call.
  cbn [fst snd newCanvas imageSmoothingEnabled imageSmoothingQuality drawn
       canvas_width canvas_height app].
  fold (blankCanvas size). fold (drawnCanvas img size).
  destruct (getContext2d env (blankCanvas size)); reflexivity.
Qed.

Lemma drawnSizes_app (l1 l2 : list Event) :
  drawnSizes (l1 ++ l2) = drawnSizes l1 ++ drawnSizes l2.
Proof.
  induction l1 as [|ev l1 IH]; [reflexivity|].
  destruct ev; cbn [app drawnSizes]; rewrite ?IH; reflexivity.
Qed.

Lemma pngPromise_inr (env : Browser) (img : HTMLImageElement) (s : Z) (e : ImageEntry) :
  fst (pngPromise env img s) = inr e <-> encoded env img s e.
Proof.
  unfold pngPromise, await, resolve, encoded. rewrite generatePngBlob_unfold.
  destruct (getContext2d env (blankCanvas s)); cbn [fst snd].
  - destruct (toBlob env (drawnCanvas img s)) as [bytes|]; cbn [fst snd blob_bytes].
    + split.
      * intros H. injection H as <-. cbn. auto.
      * intros (Hs & _ & Hb). destruct e as [es eb]. cbn in *. congruence.
    + split; [discriminate|]. intros (_ & _ & H). discriminate.
  - split; [discriminate|]. intros (_ & H & _). discriminate.
Qed.

Lemma pngPromise_drawn (env : Browser) (img : HTMLImageElement) (s : Z) (e : ImageEntry) :
  fst (pngPromise env img s) = inr e ->
  drawnSizes (snd (pngPromise env img s)) = [s].
Proof.
  unfold pngPromise, await, resolve. rewrite generatePngBlob_unfold.
  destruct (getContext2d env (blankCanvas s)); cbn [fst snd].
  - destruct (toBlob env (drawnCanvas img s)); cbn [fst snd]; [reflexivity | discriminate].
  - discriminate.
Qed.

Lemma pngPromise_error (env : Browser) (img : HTMLImageElement) (s : Z) (err : Error) :
  fst (pngPromise env img s) = inl err -> err = NoCanvasContext \/ err = BlobFailed s.
Proof.
  unfold pngPromise, await, resolve. rewrite generatePngBlob_unfold.
  destruct (getContext2d env (blankCanvas s)); cbn [fst snd].
  - destruct (toBlob env (drawnCanvas img s)); cbn [fst snd]; [discriminate|].
    intros H. injection H as <-. now right.
  - intros H. injection H as <-. now left.
Qed.

(** [Promise.all] fulfils exactly when every promise does, with the values
    in list order. *)
Lemma Promise_all_inr {A} (ps : list (Promise A)) :
  forall l : list A,
    fst (Promise_all ps) = inr l <-> Forall2 (fun p a => fst p = inr a) ps l.
Proof.
  induction ps as [|p ps IH]; intros l; cbn [Promise_all fst].
  - split.
    + intros H. injection H as <-. constructor.
    + intros H. inversion H. reflexivity.
  - destruct (fst p) as [e|a] eqn:Hp.
    + split; [discriminate|]. intros H. inversion H as [|? b ? l2 Hb Hrest]; subst.
      cbn beta in Hb. rewrite Hp in Hb. discriminate.
    + destruct (fst (Promise_all ps)) as [e|l'] eqn:Hr.
      * split; [discriminate|]. intros H. inversion H as [|? b ? l2 Hb Hrest]; subst.
        apply IH in Hrest. discriminate.
      * split.
        -- intros H. injection H as <-. constructor; [exact Hp|]. now apply IH.
        -- intros H. inversion H as [|? b ? l2 Hb Hrest]; subst.
           apply IH in Hrest. cbn beta in Hb. rewrite Hp in Hb.
           injection Hb as <-. injection Hrest as <-. reflexivity.
Qed.

Lemma Promise_all_inl {A} (ps : list (Promise A)) (err : Error) :
  fst (Promise_all ps) = inl err -> exists p, In p ps /\ fst p = inl err.
Proof.
  induction ps as [|p ps IH]; cbn [Promise_all fst]; [discriminate|].
  destruct (fst p) as [e|a] eqn:Hp.
  - intros H. injection H as <-. exists p. split; [now left | exact Hp].
  - destruct (fst (Promise_all ps)) as [e|l'] eqn:Hr; [|discriminate].
    intros H. injection H as <-. destruct (IH eq_refl) as (q & Hq & Hqe).
    exists q. split; [now right | exact Hqe].
Qed.

Lemma pngPromises_inr (env : Browser) (img : HTMLImageElement) (es : list ImageEntry) :
  fst (Promise_all (pngPromises env img)) = inr es <->
  Forall2 (encoded env img) (sizes img) es.
Proof.
  rewrite Promise_all_inr. unfold pngPromises.
  generalize (sizes img) as l. intros l. revert es.
  induction l as [|s l IH]; intros es; cbn [map].
  - split; intros H; inversion H; constructor.
  - split; intros H; inversion H as [|? e ? es' He Hrest]; subst; constructor;
      try (now apply pngPromise_inr); now apply IH.
Qed.

Lemma pngPromises_drawn (env : Browser) (img : HTMLImageElement) (es : list ImageEntry) :
  fst (Promise_all (pngPromises env img)) = inr es ->
  drawnSizes (snd (Promise_all (pngPromises env img))) = sizes img.
Proof.
  rewrite Promise_all_inr. unfold pngPromises.
  generalize (sizes img) as l. intros l. revert es.
  induction l as [|s l IH]; intros es H; cbn [map Promise_all snd].
  - reflexivity.
  - inversion H as [|? e ? es' He Hrest]; subst.
    rewrite drawnSizes_app, (pngPromise_drawn _ _ _ _ He), (IH _ Hrest). reflexivity.
Qed.

Lemma small_check (img : HTMLImageElement) :
  (width img <? 16) || (height img <? 16) = false <-> 16 <= width img /\ 16 <= height img.
Proof. rewrite orb_false_iff, !Z.ltb_ge. reflexivity. Qed.

Lemma In_16_sizes (img : HTMLImageElement) :
  16 <= width img -> 16 <= height img -> In 16 (sizes img).
Proof.
  intros Hw Hh. unfold sizes. apply filter_In. split.
  - unfold standardSizes. simpl. tauto.
  - apply andb_true_intro. split; apply Z.leb_le; assumption.
Qed.

Lemma sizes_nonempty (img : HTMLImageElement) :
  16 <= width img -> 16 <= height img -> (length (sizes img) =? 0)%nat = false.
Proof.
  intros Hw Hh. pose proof (In_16_sizes img Hw Hh) as H.
  destruct (sizes img); [destruct H | reflexivity].
Qed.

(** Past its two guards, [generateIcoBlob] is [Promise.all] followed by
    [buildIco]. *)
Lemma generateIcoBlob_large (env : Browser) (img : HTMLImageElement) :
  16 <= width img -> 16 <= height img ->
  generateIcoBlob env img =
  (match fst (Promise_all (pngPromises env img)) with
   | inl e => inl e
   | inr es => inr {| blob_bytes := icoBytes es; blob_type := "image/x-icon" |}
   end, snd (Promise_all (pngPromises env img))).
Proof.
  intros Hw Hh. unfold generateIcoBlob.
  rewrite (proj2 (small_check img) (conj Hw Hh)), (sizes_nonempty img Hw Hh).
  unfold await. destruct (fst (Promise_all (pngPromises env img))) as [e|es].
  - reflexivity.
  - cbn [fst snd]. now rewrite buildIco_layout, app_nil_r.
Qed.

Lemma generateIcoBlob_small (env : Browser) (img : HTMLImageElement) :
  width img < 16 \/ height img < 16 ->
  generateIcoBlob env img = (inl ImageTooSmall, []).
Proof.
  intros H. unfold generateIcoBlob.
  replace ((width img <? 16) || (height img <? 16)) with true; [reflexivity|].
  symmetry. apply orb_true_iff. rewrite !Z.ltb_lt. exact H.
Qed.

(** What a fulfilled [generateIcoBlob] tells. *)
Lemma generateIcoBlob_inr (env : Browser) (img : HTMLImageElement) (ico : Blob)
      (log : list Event) :
  generateIcoBlob env img = (inr ico, log) ->
  16 <= width img /\ 16 <= height img /\
  drawnSizes log = sizes img /\
  exists es, Forall2 (encoded env img) (sizes img) es /\
             ico = {| blob_bytes := icoBytes es; blob_type := "image/x-icon" |}.
Proof.
  intros H.
  assert (Hdim : 16 <= width img /\ 16 <= height img).
  { destruct (Z.lt_ge_cases (width img) 16) as [Hw|Hw];
      [rewrite generateIcoBlob_small in H by (now left); discriminate|].
    destruct (Z.lt_ge_cases (height img) 16) as [Hh|Hh];
      [rewrite generateIcoBlob_small in H by (now right); discriminate|].
    now split. }
  destruct Hdim as [Hw Hh]. rewrite (generateIcoBlob_large env img Hw Hh) in H.
  revert H.
  destruct (fst (Promise_all (pngPromises env img))) as [e|es] eqn:Hall;
    intros H; [discriminate|].
  injection H as <- <-. repeat split; try assumption.
  - exact (pngPromises_drawn env img es Hall).
  - exists es. split; [now apply pngPromises_inr | reflexivity].
Qed.

(** [generateIcoBlob] fulfils whenever the browser gives a context and a
    blob for each selected size. *)
Lemma generateIcoBlob_fulfils (env : Browser) (img : HTMLImageElement) (es : list ImageEntry) :
  16 <= width img -> 16 <= height img ->
  Forall2 (encoded env img) (sizes img) es ->
  fst (generateIcoBlob env img) =
  inr {| blob_bytes := icoBytes es; blob_type := "image/x-icon" |}.
Proof.
  intros Hw Hh Hes. rewrite (generateIcoBlob_large env img Hw Hh).
  apply pngPromises_inr in Hes. cbn [fst]. now rewrite Hes.
Qed.

Lemma Forall2_length_eq {A B} (P : A -> B -> Prop) (l1 : list A) (l2 : list B) :
  Forall2 P l1 l2 -> length l1 = length l2.
Proof. induction 1; simpl; congruence. Qed.

Lemma length_sizes_le (img : HTMLImageElement) : (length (sizes img) <= 6)%nat.
Proof. unfold sizes. exact (filter_length_le _ standardSizes). Qed.

Lemma header_icoBytes (es : list ImageEntry) :
  getUint16 (icoBytes es) 0 = Some 0 /\
  getUint16 (icoBytes es) 2 = Some 1 /\
  getUint16 (icoBytes es) 4 = Some (Z.of_nat (length es) mod 2 ^ 16).
Proof.
  unfold getUint16, icoBytes, headerBytes.
  cbv [le_split]. cbn [app].
  rewrite !getUint_abs by (try lia; cbn [length]; simpl Z.to_nat; lia).
  to_nat_literals. cbn [Z.to_nat skipn firstn].
  change [byte.of_Z 0; byte.of_Z (Z.shiftr 0 8)] with (le_split 2 0).
  change [byte.of_Z 1; byte.of_Z (Z.shiftr 1 8)] with (le_split 2 1).
  change [byte.of_Z (Z.of_nat (length es)); byte.of_Z (Z.shiftr (Z.of_nat (length es)) 8)]
    with (le_split 2 (Z.of_nat (length es))).
  rewrite !le_combine_split. repeat split.
Qed.

Lemma sizes_spec (img : HTMLImageElement) (s : Z) :
  In s (sizes img) <-> In s standardSizes /\ s <= width img /\ s <= height img.
Proof.
  unfold sizes. rewrite filter_In, andb_true_iff, !Z.leb_le. reflexivity.
Qed.

Lemma NoDup_standardSizes : NoDup standardSizes.
Proof.
  unfold standardSizes.
  repeat (constructor; [simpl; intros H; repeat destruct H as [H|H]; try discriminate; exact H|]).
  constructor.
Qed.

(** ** Size selection *)

(** C1. For a source of at least 16 by 16, the sizes [generateIcoBlob]
    selects (and resamples, one [drawImage] each) are exactly the candidates
    of [256; 128; 64; 48; 32; 16] that are at most the width and at most the
    height, and the uint16 at byte offset 4 of the container is their
    number. *)
Theorem C1_selected_sizes_and_count (env : Browser) (img : HTMLImageElement)
        (ico : Blob) (log : list Event) :
  16 <= width img -> 16 <= height img ->
  generateIcoBlob env img = (inr ico, log) ->
  (forall s, In s (sizes img) <->
             In s [256; 128; 64; 48; 32; 16] /\ s <= width img /\ s <= height img) /\
  NoDup (sizes img) /\
  drawnSizes log = sizes img /\
  getUint16 (blob_bytes ico) 4 = Some (Z.of_nat (length (sizes img))).
Proof.
  intros _ _ H.
  destruct (generateIcoBlob_inr env img ico log H) as (_ & _ & Hlog & es & Hes & ->).
  split; [exact (sizes_spec img)|].
  split; [exact (NoDup_filter _ NoDup_standardSizes)|].
  split; [exact Hlog|].
  cbn [blob_bytes]. destruct (header_icoBytes es) as (_ & _ & ->).
  rewrite <- (Forall2_length_eq _ _ _ Hes).
  pose proof (length_sizes_le img).
  rewrite Z.mod_small by lia. reflexivity.
Qed.

Lemma C1_witness :
  16 <= width sampleImage /\ 16 <= height sampleImage /\
  drawnSizes sampleLog = sizes sampleImage /\
  getUint16 (blob_bytes sampleIco) 4 = Some (Z.of_nat (length (sizes sampleImage))).
Proof.
  split; [cbn; lia|]. split; [cbn; lia|].
  apply (C1_selected_sizes_and_count sampleBrowser sampleImage sampleIco sampleLog);
    [cbn; lia | cbn; lia | vm_compute; reflexivity].
Defined.

(** C2. A source narrower or shorter than 16 makes [generateIcoBlob] reject
    with [ImageTooSmall]; the promise made no browser call at all (no canvas,
    no [drawImage], no [toBlob]) and carries no container. *)
Theorem C2_image_too_small (env : Browser) (img : HTMLImageElement) :
  width img < 16 \/ height img < 16 ->
  generateIcoBlob env img = (inl ImageTooSmall, []) /\
  (forall ico log, generateIcoBlob env img <> (inr ico, log)).
Proof.
  intros H. rewrite (generateIcoBlob_small env img H).
  split; [reflexivity | intros ico log; discriminate].
Qed.

Lemma C2_witness :
  generateIcoBlob sampleBrowser tinyImage = (inl ImageTooSmall, []) /\
  (forall ico log, generateIcoBlob sampleBrowser tinyImage <> (inr ico, log)).
Proof.
  apply (C2_image_too_small sampleBrowser tinyImage). left. cbn. lia.
Defined.

(** ** Rows of a produced container *)

Lemma prefix_bound (es : list ImageEntry) (i : nat) (e : ImageEntry) :
  nth_error es i = Some e ->
  (length (dataBytes (firstn i es)) + length (buffer e) <= length (dataBytes es))%nat.
Proof.
  intros Hi. pose proof (f_equal (@length byte) (dataBytes_split es i e Hi)) as H.
  rewrite !length_app in H. lia.
Qed.

Lemma prefix_succ (es : list ImageEntry) :
  forall (i : nat) (e : ImageEntry),
    nth_error es i = Some e ->
    length (dataBytes (firstn (S i) es)) =
    (length (dataBytes (firstn i es)) + length (buffer e))%nat.
Proof.
  induction es as [|a es IH]; intros [|i] e Hi; try discriminate.
  - injection Hi as ->. cbn [firstn]. rewrite length_dataBytes_cons. apply Nat.add_comm.
  - cbn [nth_error] in Hi. change (firstn (S (S i)) (a :: es)) with (a :: firstn (S i) es).
    change (firstn (S i) (a :: es)) with (a :: firstn i es).
    rewrite !length_dataBytes_cons, (IH _ _ Hi). lia.
Qed.

Lemma rowsOf_nth_inv (es : list ImageEntry) (fo : Z) (i : nat) (row : IconDirectoryEntry) :
  nth_error (rowsOf es fo) i = Some row ->
  exists e, nth_error es i = Some e /\
            row = rowOf e (fo + Z.of_nat (length (dataBytes (firstn i es)))).
Proof.
  intros Hrow. destruct (nth_error es i) as [e|] eqn:Hi.
  - exists e. split; [reflexivity|]. rewrite (rowsOf_nth es fo i e Hi) in Hrow. congruence.
  - apply nth_error_None in Hi. rewrite <- (length_rowsOf es fo) in Hi.
    apply nth_error_None in Hi. congruence.
Qed.

Lemma parseDirectory_icoBytes (es : list ImageEntry) :
  parseDirectory (length es) (icoBytes es) 6 =
  Some (rowsOf es (headerSize + directorySize es)).
Proof.
  unfold icoBytes. apply parseDirectory_directoryBytes.
  unfold headerBytes. rewrite !length_app, !length_le_split. reflexivity.
Qed.

Lemma parseRow_icoBytes (es : list ImageEntry) (i : nat) (e : ImageEntry) :
  nth_error es i = Some e ->
  parseRow (icoBytes es) (6 + 16 * Z.of_nat i) =
  Some (rowOf e (headerSize + directorySize es
                 + Z.of_nat (length (dataBytes (firstn i es))))).
Proof.
  intros Hi.
  destruct (parseDirectory_nth _ _ _ _ (parseDirectory_icoBytes es)) as [_ Hnth].
  apply Hnth. now apply rowsOf_nth.
Qed.

Lemma displaySize_byte (s : Z) :
  In s standardSizes -> displaySize s mod 2 ^ 8 = if s =? 256 then 0 else s.
Proof.
  unfold standardSizes. simpl.
  intros [<-|[<-|[<-|[<-|[<-|[<-|[]]]]]]]; reflexivity.
Qed.

Lemma entrySize_rowOf (e : ImageEntry) (fo : Z) :
  In (size e) standardSizes -> entrySize (rowOf e fo) = size e.
Proof.
  intros Hin. unfold entrySize, rowOf. cbn [width_byte].
  rewrite (displaySize_byte _ Hin). revert Hin. unfold standardSizes. simpl.
  intros [<-|[<-|[<-|[<-|[<-|[<-|[]]]]]]]; reflexivity.
Qed.

Lemma encoded_entries_sizes (env : Browser) (img : HTMLImageElement)
      (ss : list Z) (es : list ImageEntry) :
  Forall2 (encoded env img) ss es -> map size es = ss.
Proof.
  induction 1 as [|s e ss es (Hs & _) _ IH]; [reflexivity|].
  cbn [map]. now rewrite Hs, IH.
Qed.

Lemma map_entrySize_rowsOf (es : list ImageEntry) :
  forall fo, Forall (fun e => In (size e) standardSizes) es ->
             map entrySize (rowsOf es fo) = map size es.
Proof.
  induction es as [|e es IH]; intros fo H; [reflexivity|].
  inversion H as [|? ? He Hes]; subst. cbn [rowsOf map].
  now rewrite (entrySize_rowOf e fo He), IH.
Qed.

Lemma entries_standard (env : Browser) (img : HTMLImageElement) (es : list ImageEntry) :
  Forall2 (encoded env img) (sizes img) es ->
  Forall (fun e => In (size e) standardSizes) es.
Proof.
  intros Hes. apply Forall_forall. intros e He.
  pose proof (encoded_entries_sizes _ _ _ _ Hes) as Hmap.
  assert (Hin : In (size e) (sizes img)) by (rewrite <- Hmap; now apply in_map).
  now apply sizes_spec in Hin.
Qed.

(** ** Descending order and suffixes *)

Lemma leb_min (s w h : Z) : (s <=? w) && (s <=? h) = (s <=? Z.min w h).
Proof.
  destruct (Z.leb_spec s w), (Z.leb_spec s h), (Z.leb_spec s (Z.min w h));
    try reflexivity; lia.
Qed.

(** The selection only depends on the smaller source dimension, and keeps a
    tail of the candidate list. *)
Lemma sizes_by_min (img : HTMLImageElement) :
  let m := Z.min (width img) (height img) in
  sizes img =
  if 256 <=? m then [256; 128; 64; 48; 32; 16]
  else if 128 <=? m then [128; 64; 48; 32; 16]
  else if 64 <=? m then [64; 48; 32; 16]
  else if 48 <=? m then [48; 32; 16]
  else if 32 <=? m then [32; 16]
  else if 16 <=? m then [16]
  else [].
Proof.
  intros m. unfold sizes, standardSizes. cbn [filter]. rewrite !leb_min. fold m.
  repeat match goal with
         | |- context [?a <=? m] => destruct (Z.leb_spec a m); try lia
         end; reflexivity.
Qed.

Lemma sizes_descending (img : HTMLImageElement) : StronglySorted Z.gt (sizes img).
Proof.
  rewrite sizes_by_min. cbv zeta.
  repeat match goal with
         | |- context [if ?b then _ else _] => destruct b
         end;
    repeat (constructor; [|repeat (constructor; try lia)]); constructor.
Qed.

Lemma sizes_suffix (img : HTMLImageElement) :
  exists pre, standardSizes = pre ++ sizes img.
Proof.
  rewrite sizes_by_min. cbv zeta. unfold standardSizes.
  repeat match goal with
         | |- context [if ?b then _ else _] => destruct b
         end.
  - now exists [].
  - now exists [256].
  - now exists [256; 128].
  - now exists [256; 128; 64].
  - now exists [256; 128; 64; 48].
  - now exists [256; 128; 64; 48; 32].
  - exists [256; 128; 64; 48; 32; 16]. reflexivity.
Qed.

Lemma sizes_last (img : HTMLImageElement) :
  16 <= width img -> 16 <= height img ->
  nth_error (sizes img) (length (sizes img) - 1) = Some 16.
Proof.
  intros Hw Hh. rewrite sizes_by_min. cbv zeta.
  repeat match goal with
         | |- context [if ?b then _ else _] => destruct b eqn:?
         end; try reflexivity.
  apply Z.leb_gt in Heqb4. lia.
Qed.

Lemma parseRow_fields (bs : list byte) (off : Z) (row : IconDirectoryEntry) :
  parseRow bs off = Some row ->
  getUint8 bs off = Some (width_byte row) /\
  getUint8 bs (off + 1) = Some (height_byte row) /\
  getUint8 bs (off + 2) = Some (colorCount row) /\
  getUint8 bs (off + 3) = Some (reserved row) /\
  getUint16 bs (off + 4) = Some (colorPlanes row) /\
  getUint16 bs (off + 6) = Some (bitsPerPixel row) /\
  getUint32 bs (off + 8) = Some (dataSize row) /\
  getUint32 bs (off + 12) = Some (dataOffset row).
Proof.
  unfold parseRow.
  destruct (getUint8 bs off); [|discriminate].
  destruct (getUint8 bs (off + 1)); [|discriminate].
  destruct (getUint8 bs (off + 2)); [|discriminate].
  destruct (getUint8 bs (off + 3)); [|discriminate].
  destruct (getUint16 bs (off + 4)); [|discriminate].
  destruct (getUint16 bs (off + 6)); [|discriminate].
  destruct (getUint32 bs (off + 8)); [|discriminate].
  destruct (getUint32 bs (off + 12)); [|discriminate].
  cbn [bindO]. intros H. injection H as <-. cbn. repeat split.
Qed.

(** Everything known about row [i] of a fulfilled run. *)
Lemma row_of_run (env : Browser) (img : HTMLImageElement) (es : list ImageEntry)
      (i : nat) (s : Z) :
  Forall2 (encoded env img) (sizes img) es ->
  nth_error (sizes img) i = Some s ->
  exists e, nth_error es i = Some e /\ size e = s /\ In s standardSizes /\
            toBlob env (drawnCanvas img s) = Some (buffer e) /\
            parseRow (icoBytes es) (6 + 16 * Z.of_nat i) =
            Some (rowOf e (headerSize + directorySize es
                           + Z.of_nat (length (dataBytes (firstn i es))))).
Proof.
  intros Hes Hi.
  destruct (Forall2_nth _ _ _ Hes i s Hi) as (e & He & Hsz & _ & Hblob).
  exists e. repeat split; try assumption.
  - apply nth_error_In in Hi. now apply sizes_spec in Hi.
  - now apply parseRow_icoBytes.
Qed.

Lemma length_dataBytes_sum (es : list ImageEntry) :
  Z.of_nat (length (dataBytes es)) = sumZ (map byteLength (map buffer es)).
Proof.
  induction es as [|e es IH]; [reflexivity|].
  rewrite length_dataBytes_cons. cbn [map sumZ fold_right]. fold (sumZ (map byteLength (map buffer es))).
  rewrite <- IH. unfold byteLength. lia.
Qed.

Lemma encoded_buffers (env : Browser) (img : HTMLImageElement) (ss : list Z)
      (es : list ImageEntry) :
  Forall2 (encoded env img) ss es ->
  Forall2 (fun s png => toBlob env (drawnCanvas img s) = Some png) ss (map buffer es).
Proof.
  induction 1 as [|s e ss es (_ & _ & Hb) _ IH]; constructor; assumption.
Qed.

(** ** The container of a fulfilled run *)

Section FulfilledRun.

Variable env : Browser.
Variable img : HTMLImageElement.
Variable ico : Blob.
Variable log : list Event.

(** [generateIcoBlob(img)] fulfilled with [ico]. *)
Hypothesis run : generateIcoBlob env img = (inr ico, log).

Local Abbreviation bytes := (blob_bytes ico).
Local Abbreviation N := (length (sizes img)).

(** The [imageEntries] behind the container. *)
Lemma run_entries :
  exists es, Forall2 (encoded env img) (sizes img) es /\
             length es = N /\ (1 <= N <= 6)%nat /\
             bytes = icoBytes es.
Proof.
  destruct (generateIcoBlob_inr env img ico log run) as (Hw & Hh & _ & es & Hes & ->).
  exists es. split; [exact Hes|].
  split; [symmetry; exact (Forall2_length_eq _ _ _ Hes)|].
  split; [|reflexivity].
  pose proof (length_sizes_le img). pose proof (sizes_nonempty img Hw Hh) as Hne.
  apply Nat.eqb_neq in Hne. lia.
Qed.

Ltac with_entries es Hes Hn H6 :=
  destruct run_entries as (es & Hes & Hn & H6 & Hbytes); rewrite Hbytes in *; clear Hbytes.

(** C3. Round trip: reading a produced container back (6-byte header, then
    [imageCount] rows of 16 bytes) gives the selected sizes, in descending
    order, and the bytes from [dataOffset] of length [dataSize] of each row
    are the PNG the encoder produced for that size.  Offsets being 32-bit
    fields, the container is taken shorter than 2^32 bytes. *)
Theorem C3_round_trip :
  byteLength bytes < 2 ^ 32 ->
  exists f : IconFile,
    parseIco bytes = Some f /\
    imageCount f = Z.of_nat (length (directory f)) /\
    map entrySize (directory f) = sizes img /\
    StronglySorted Z.gt (map entrySize (directory f)) /\
    Forall2 (fun s row => toBlob env (drawnCanvas img s) = Some (payload bytes row))
            (sizes img) (directory f).
Proof.
  intros Hlen. with_entries es Hes Hn H6.
  assert (Hsizes : map entrySize (rowsOf es (headerSize + directorySize es)) = sizes img).
  { rewrite map_entrySize_rowsOf by exact (entries_standard env img es Hes).
    exact (encoded_entries_sizes _ _ _ _ Hes). }
  eexists. split; [apply parseIco_icoBytes; lia|].
  cbn [imageCount directory].
  split; [now rewrite length_rowsOf|].
  split; [exact Hsizes|].
  split; [rewrite Hsizes; apply sizes_descending|].
  apply Forall2_of_nth; [now rewrite length_rowsOf|].
  intros i s row Hs Hrow.
  destruct (rowsOf_nth_inv _ _ _ _ Hrow) as (e & He & ->).
  destruct (Forall2_nth _ _ _ Hes i s Hs) as (e' & He' & _ & _ & Hblob).
  rewrite He in He'. injection He' as <-.
  rewrite (payload_rowOf es i e He Hlen). exact Hblob.
Qed.

(** C4. Offsets: in a produced container with N rows, the first row's
    [dataOffset] is 6 + 16 * N and each further row's [dataOffset] is the
    previous row's [dataOffset] plus its [dataSize]. *)
Theorem C4_offsets_cumulative :
  byteLength bytes < 2 ^ 32 ->
  exists f : IconFile,
    parseIco bytes = Some f /\
    imageCount f = Z.of_nat (length (directory f)) /\
    (exists first, nth_error (directory f) 0 = Some first /\
                   dataOffset first = 6 + 16 * imageCount f) /\
    (forall i row next,
        nth_error (directory f) i = Some row ->
        nth_error (directory f) (S i) = Some next ->
        dataOffset next = dataOffset row + dataSize row).
Proof.
  intros Hlen. with_entries es Hes Hn H6.
  rewrite length_icoBytes in Hlen.
  eexists. split; [apply parseIco_icoBytes; lia|].
  cbn [imageCount directory].
  split; [now rewrite length_rowsOf|].
  split.
  - destruct es as [|e es]; [cbn [length] in Hn; lia|].
    eexists. split; [reflexivity|].
    unfold rowOf, headerSize, directorySize. cbn [dataOffset].
    rewrite Z.mod_small by (cbn [length] in *; lia). reflexivity.
  - intros i row next Hrow Hnext.
    destruct (rowsOf_nth_inv _ _ _ _ Hrow) as (e & He & ->).
    destruct (rowsOf_nth_inv _ _ _ _ Hnext) as (e' & He' & ->).
    pose proof (prefix_bound es i e He) as Hb.
    pose proof (prefix_bound es (S i) e' He') as Hb'.
    rewrite (prefix_succ es i e He) in *.
    unfold rowOf, headerSize, directorySize, byteLength. cbn [dataOffset dataSize].
    rewrite !Z.mod_small by lia. lia.
Qed.

(** C5. Row layout: in the row of a selected size, bytes 0 and 1 are 0 for
    size 256 and the size itself otherwise, bytes 2 and 3 are 0, the uint16
    fields at bytes 4 and 6 are 0, and the little-endian uint32 at bytes 8 to
    11 is the byte length of the PNG encoded for that size. *)
Theorem C5_directory_row_layout (i : nat) (s : Z) :
  byteLength bytes < 2 ^ 32 ->
  nth_error (sizes img) i = Some s ->
  let off := 6 + 16 * Z.of_nat i in
  getUint8 bytes off = Some (if s =? 256 then 0 else s) /\
  getUint8 bytes (off + 1) = Some (if s =? 256 then 0 else s) /\
  getUint8 bytes (off + 2) = Some 0 /\
  getUint8 bytes (off + 3) = Some 0 /\
  getUint16 bytes (off + 4) = Some 0 /\
  getUint16 bytes (off + 6) = Some 0 /\
  exists png, toBlob env (drawnCanvas img s) = Some png /\
              getUint32 bytes (off + 8) = Some (byteLength png).
Proof.
  intros Hlen Hs off. with_entries es Hes Hn H6.
  destruct (row_of_run env img es i s Hes Hs) as (e & He & Hsz & Hin & Hblob & Hrow).
  apply parseRow_fields in Hrow. fold off in Hrow.
  destruct Hrow as (H0 & H1 & H2 & H3 & H4 & H5 & H8 & _).
  cbn [rowOf width_byte height_byte colorCount reserved colorPlanes bitsPerPixel dataSize]
    in *.
  rewrite Hsz, (displaySize_byte s Hin) in H0, H1.
  repeat (split; [assumption|]).
  exists (buffer e). split; [exact Hblob|].
  rewrite H8. f_equal. apply Z.mod_small.
  rewrite length_icoBytes in Hlen. pose proof (prefix_bound es i e He).
  unfold byteLength. lia.
Qed.

(** C6. Header and length: a produced container starts with the
    little-endian uint16 values 0 (reserved), 1 (type) and N (count), and is
    exactly 6 + 16 * N + the byte lengths of the N encoded PNGs long. *)
Theorem C6_header_and_total_length :
  getUint16 bytes 0 = Some 0 /\
  getUint16 bytes 2 = Some 1 /\
  getUint16 bytes 4 = Some (Z.of_nat N) /\
  exists pngs : list (list byte),
    Forall2 (fun s png => toBlob env (drawnCanvas img s) = Some png) (sizes img) pngs /\
    byteLength bytes = 6 + 16 * Z.of_nat N + sumZ (map byteLength pngs).
Proof.
  with_entries es Hes Hn H6.
  destruct (header_icoBytes es) as (H0 & H2 & H4).
  rewrite Z.mod_small in H4 by lia.
  split; [exact H0|]. split; [exact H2|].
  split; [now rewrite H4, Hn|].
  exists (map buffer es). split; [exact (encoded_buffers _ _ _ _ Hes)|].
  now rewrite length_icoBytes, length_dataBytes_sum, Hn.
Qed.

(** C10. In a fulfilled run the selected sizes are a tail of
    [256; 128; 64; 48; 32; 16]; their number, which is the count in the
    header, is between 1 and 6; the last selected size is 16 and the last
    directory row declares 16 by 16. *)
Theorem C10_suffix_and_smallest_entry :
  let lastRow := 6 + 16 * (Z.of_nat N - 1) in
  (exists pre, [256; 128; 64; 48; 32; 16] = pre ++ sizes img) /\
  (1 <= N <= 6)%nat /\
  getUint16 bytes 4 = Some (Z.of_nat N) /\
  nth_error (sizes img) (N - 1) = Some 16 /\
  getUint8 bytes lastRow = Some 16 /\
  getUint8 bytes (lastRow + 1) = Some 16.
Proof.
  intros lastRow.
  destruct (generateIcoBlob_inr env img ico log run) as (Hw & Hh & _).
  pose proof (sizes_last img Hw Hh) as Hlast.
  with_entries es Hes Hn H6.
  split; [exact (sizes_suffix img)|].
  split; [exact H6|].
  split.
  { destruct (header_icoBytes es) as (_ & _ & ->).
    rewrite Z.mod_small by lia. now rewrite Hn. }
  split; [exact Hlast|].
  destruct (row_of_run env img es (N - 1) 16 Hes Hlast) as (e & _ & Hsz & Hin & _ & Hrow).
  apply parseRow_fields in Hrow.
  replace (6 + 16 * Z.of_nat (N - 1)) with lastRow in Hrow by (unfold lastRow; lia).
  destruct Hrow as (H0 & H1 & _).
  cbn [rowOf width_byte height_byte] in H0, H1.
  rewrite Hsz in H0, H1. split; assumption.
Qed.

End FulfilledRun.

(** The sample run fulfils, and its container is shorter than 2^32 bytes. *)
Lemma generateIcoBlob_sample :
  generateIcoBlob sampleBrowser sampleImage = (inr sampleIco, sampleLog).
Proof. vm_compute. reflexivity. Qed.

Lemma sampleIco_short : byteLength (blob_bytes sampleIco) < 2 ^ 32.
Proof. vm_compute. reflexivity. Qed.

Lemma C3_witness :
  exists f : IconFile,
    parseIco (blob_bytes sampleIco) = Some f /\
    imageCount f = Z.of_nat (length (directory f)) /\
    map entrySize (directory f) = sizes sampleImage /\
    StronglySorted Z.gt (map entrySize (directory f)) /\
    Forall2 (fun s row =>
               toBlob sampleBrowser (drawnCanvas sampleImage s)
               = Some (payload (blob_bytes sampleIco) row))
            (sizes sampleImage) (directory f).
Proof.
  apply (C3_round_trip sampleBrowser sampleImage sampleIco sampleLog);
    vm_compute; reflexivity.
Defined.

Lemma C4_witness :
  exists f : IconFile,
    parseIco (blob_bytes sampleIco) = Some f /\
    imageCount f = Z.of_nat (length (directory f)) /\
    (exists first, nth_error (directory f) 0 = Some first /\
                   dataOffset first = 6 + 16 * imageCount f) /\
    (forall i row next,
        nth_error (directory f) i = Some row ->
        nth_error (directory f) (S i) = Some next ->
        dataOffset next = dataOffset row + dataSize row).
Proof.
  apply (C4_offsets_cumulative sampleBrowser sampleImage sampleIco sampleLog);
    vm_compute; reflexivity.
Defined.

Lemma C5_witness :
  let off := 6 + 16 * Z.of_nat 0 in
  getUint8 (blob_bytes sampleIco) off = Some (if 48 =? 256 then 0 else 48) /\
  getUint8 (blob_bytes sampleIco) (off + 1) = Some (if 48 =? 256 then 0 else 48) /\
  getUint8 (blob_bytes sampleIco) (off + 2) = Some 0 /\
  getUint8 (blob_bytes sampleIco) (off + 3) = Some 0 /\
  getUint16 (blob_bytes sampleIco) (off + 4) = Some 0 /\
  getUint16 (blob_bytes sampleIco) (off + 6) = Some 0 /\
  exists png, toBlob sampleBrowser (drawnCanvas sampleImage 48) = Some png /\
              getUint32 (blob_bytes sampleIco) (off + 8) = Some (byteLength png).
Proof.
  apply (C5_directory_row_layout sampleBrowser sampleImage sampleIco sampleLog);
    vm_compute; reflexivity.
Defined.

Lemma C6_witness :
  getUint16 (blob_bytes sampleIco) 0 = Some 0 /\
  getUint16 (blob_bytes sampleIco) 2 = Some 1 /\
  getUint16 (blob_bytes sampleIco) 4 = Some (Z.of_nat (length (sizes sampleImage))) /\
  exists pngs : list (list byte),
    Forall2 (fun s png => toBlob sampleBrowser (drawnCanvas sampleImage s) = Some png)
            (sizes sampleImage) pngs /\
    byteLength (blob_bytes sampleIco) =
    6 + 16 * Z.of_nat (length (sizes sampleImage)) + sumZ (map byteLength pngs).
Proof.
  apply (C6_header_and_total_length sampleBrowser sampleImage sampleIco sampleLog).
  vm_compute. reflexivity.
Defined.

Lemma C10_witness :
  let lastRow := 6 + 16 * (Z.of_nat (length (sizes sampleImage)) - 1) in
  (exists pre, [256; 128; 64; 48; 32; 16] = pre ++ sizes sampleImage) /\
  (1 <= length (sizes sampleImage) <= 6)%nat /\
  getUint16 (blob_bytes sampleIco) 4 = Some (Z.of_nat (length (sizes sampleImage))) /\
  nth_error (sizes sampleImage) (length (sizes sampleImage) - 1) = Some 16 /\
  getUint8 (blob_bytes sampleIco) lastRow = Some 16 /\
  getUint8 (blob_bytes sampleIco) (lastRow + 1) = Some 16.
Proof.
  apply (C10_suffix_and_smallest_entry sampleBrowser sampleImage sampleIco sampleLog).
  vm_compute. reflexivity.
Defined.

(** ** Errors *)

Lemma generateIcoBlob_errors (env : Browser) (img : HTMLImageElement) (err : Error) :
  fst (generateIcoBlob env img) = inl err ->
  err = ImageTooSmall \/ err = NoCanvasContext \/ exists s, err = BlobFailed s.
Proof.
  destruct (Z.lt_ge_cases (width img) 16) as [Hw|Hw].
  { rewrite generateIcoBlob_small by now left. intros H. injection H as <-. now left. }
  destruct (Z.lt_ge_cases (height img) 16) as [Hh|Hh].
  { rewrite generateIcoBlob_small by now right. intros H. injection H as <-. now left. }
  rewrite (generateIcoBlob_large env img Hw Hh). cbn [fst].
  destruct (fst (Promise_all (pngPromises env img))) as [e|es] eqn:Hall; [|discriminate].
  intros H. injection H as <-.
  destruct (Promise_all_inl _ _ Hall) as (p & Hp & Hpe).
  unfold pngPromises in Hp. apply in_map_iff in Hp. destruct Hp as (s & <- & _).
  destruct (pngPromise_error env img s e Hpe) as [->| ->]; right; [now left | right; now exists s].
Qed.

Lemma sizes_empty (img : HTMLImageElement) :
  sizes img = [] -> width img < 16 \/ height img < 16.
Proof.
  intros Hnil.
  destruct (Z.lt_ge_cases (width img) 16) as [Hw|Hw]; [now left|].
  destruct (Z.lt_ge_cases (height img) 16) as [Hh|Hh]; [now right|].
  pose proof (In_16_sizes img Hw Hh) as Hin. rewrite Hnil in Hin. destruct Hin.
Qed.

(** C7, as the code has it. For a positive requested size, [generatePngBlob]
    hands the encoder a canvas of exactly size by size on which the source
    was drawn scaled to size by size, whatever the source dimensions.  It
    checks neither the size nor the source dimensions: it rejects exactly
    when the 2D context is missing or the encoder gives no blob, and
    otherwise fulfils with the encoder's PNG bytes. *)
Theorem C7_generatePngBlob_outcomes (env : Browser) (img : HTMLImageElement) (size : Z) :
  0 < size ->
  let p := generatePngBlob env img size in
  (forall c, In (EvToBlob c) (snd p) ->
             canvas_width c = size /\ canvas_height c = size /\
             drawn c = [{| d_img := img; d_x := 0; d_y := 0; d_w := size; d_h := size |}]) /\
  (forall e, fst p = inl e <->
             (e = NoCanvasContext /\ getContext2d env (blankCanvas size) = false) \/
             (e = BlobFailed size /\ getContext2d env (blankCanvas size) = true /\
              toBlob env (drawnCanvas img size) = None)) /\
  (forall blob, fst p = inr blob <->
                getContext2d env (blankCanvas size) = true /\
                toBlob env (drawnCanvas img size) = Some (blob_bytes blob) /\
                blob_type blob = "image/png"%string).
Proof.
  intros _ p. unfold p. rewrite generatePngBlob_unfold.
  destruct (getContext2d env (blankCanvas size)).
  - cbn [fst snd]. split; [|split].
    + intros c [Hc|[Hc|[Hc|[Hc|[]]]]]; try discriminate.
      injection Hc as <-. repeat split.
    + intros e. destruct (toBlob env (drawnCanvas img size)); split.
      * discriminate.
      * intros [[_ H]|(_ & _ & H)]; discriminate.
      * intros H. injection H as <-. right. repeat split.
      * intros [[_ H]|(-> & _ & _)]; [discriminate | reflexivity].
    + intros [bytes ty]. cbn [blob_bytes blob_type].
      destruct (toBlob env (drawnCanvas img size)); split.
      * intros H. injection H as -> <-. repeat split.
      * intros (_ & H & ->). injection H as ->. reflexivity.
      * discriminate.
      * intros (_ & H & _). discriminate.
  - cbn [fst snd]. split; [|split].
    + intros c [Hc|[Hc|[]]]; discriminate.
    + intros e. split.
      * intros H. injection H as <-. left. now split.
      * intros [[-> _]|(_ & H & _)]; [reflexivity | discriminate].
    + intros blob. split; [discriminate|]. intros (H & _). discriminate.
Qed.

Lemma C7_witness :
  let p := generatePngBlob sampleBrowser sampleImage 192 in
  (forall c, In (EvToBlob c) (snd p) ->
             canvas_width c = 192 /\ canvas_height c = 192 /\
             drawn c = [{| d_img := sampleImage; d_x := 0; d_y := 0;
                           d_w := 192; d_h := 192 |}]) /\
  (forall e, fst p = inl e <->
             (e = NoCanvasContext /\
              getContext2d sampleBrowser (blankCanvas 192) = false) \/
             (e = BlobFailed 192 /\ getContext2d sampleBrowser (blankCanvas 192) = true /\
              toBlob sampleBrowser (drawnCanvas sampleImage 192) = None)) /\
  (forall blob, fst p = inr blob <->
                getContext2d sampleBrowser (blankCanvas 192) = true /\
                toBlob sampleBrowser (drawnCanvas sampleImage 192) = Some (blob_bytes blob) /\
                blob_type blob = "image/png"%string).
Proof.
  apply (C7_generatePngBlob_outcomes sampleBrowser sampleImage 192). lia.
Defined.

(** C7, as stated, fails: with no 2D context the call rejects although the
    requested size, 192, is positive; the source is 300 by 50 and both
    dimensions differ from 192. *)
Lemma C7_counterexample :
  fst (generatePngBlob headlessBrowser sampleImage 192) = inl NoCanvasContext /\
  0 < 192.
Proof. split; [reflexivity | lia]. Qed.

(** C8. With both source dimensions at least 16 the selection contains 16,
    so it is not empty and [generateIcoBlob] does not reject with
    [NoEligibleSizes]; an empty selection needs a source that the
    [ImageTooSmall] guard rejects first. *)
Theorem C8_no_eligible_sizes_unreachable (env : Browser) (img : HTMLImageElement) :
  16 <= width img -> 16 <= height img ->
  In 16 (sizes img) /\
  sizes img <> [] /\
  fst (generateIcoBlob env img) <> inl NoEligibleSizes /\
  (forall env' img', fst (generateIcoBlob env' img') <> inl NoEligibleSizes) /\
  (forall img', sizes img' = [] -> width img' < 16 \/ height img' < 16).
Proof.
  intros Hw Hh.
  assert (Hnever : forall env' img', fst (generateIcoBlob env' img') <> inl NoEligibleSizes).
  { intros env' img' H.
    destruct (generateIcoBlob_errors env' img' _ H) as [H'|[H'|[s H']]]; discriminate. }
  split; [exact (In_16_sizes img Hw Hh)|].
  split.
  { intros Hnil. pose proof (In_16_sizes img Hw Hh) as Hin. rewrite Hnil in Hin.
    destruct Hin. }
  split; [apply Hnever|].
  split; [exact Hnever | exact sizes_empty].
Qed.

Lemma C8_witness :
  In 16 (sizes sampleImage) /\
  sizes sampleImage <> [] /\
  fst (generateIcoBlob sampleBrowser sampleImage) <> inl NoEligibleSizes /\
  (forall env' img', fst (generateIcoBlob env' img') <> inl NoEligibleSizes) /\
  (forall img', sizes img' = [] -> width img' < 16 \/ height img' < 16).
Proof.
  apply (C8_no_eligible_sizes_unreachable sampleBrowser sampleImage); cbn; lia.
Defined.

(** C9. A selected file whose type is not [image/png] is refused by
    [handleFileSelect]: the error text is set, the status is [error], no
    preview file is kept, and apart from revoking the old object URLs no
    browser call is made: the file is not read or decoded, nothing is drawn,
    encoded, fetched or zipped. *)
Theorem C9_invalid_file_type (env : Browser) (st : AppState) (file : File) :
  file_type file <> "image/png"%string ->
  fst (handleFileSelect env st file) =
    {| pngFile := None; zipBlobUrl := None; status := error;
       errorText := Some "Invalid file type. Please upload a PNG file."%string |} /\
  snd (handleFileSelect env st file) = revoke (pngPreviewUrl st) ++ revoke (zipBlobUrl st) /\
  forallb quiet (snd (handleFileSelect env st file)) = true.
Proof.
  intros Hty. unfold handleFileSelect.
  apply String.eqb_neq in Hty. rewrite Hty. cbn [negb fst snd zipBlobUrl].
  repeat split.
  rewrite forallb_app. unfold revoke.
  destruct (pngPreviewUrl st), (zipBlobUrl st); reflexivity.
Qed.

Lemma C9_witness :
  fst (handleFileSelect sampleBrowser initialState textFile) =
    {| pngFile := None; zipBlobUrl := None; status := error;
       errorText := Some "Invalid file type. Please upload a PNG file."%string |} /\
  snd (handleFileSelect sampleBrowser initialState textFile) =
    revoke (pngPreviewUrl initialState) ++ revoke (zipBlobUrl initialState) /\
  forallb quiet (snd (handleFileSelect sampleBrowser initialState textFile)) = true.
Proof.
  apply (C9_invalid_file_type sampleBrowser initialState textFile).
  cbn. discriminate.
Defined.

(** ** The pipeline around a small source *)

(** [handleConvert] starts the icon and both standalone PNGs together, so
    for a source smaller than 16 by 16 the run fails with [ImageTooSmall]
    although the 192 and 512 variants were resampled. *)
Lemma convert_small_source (env : Browser) (file : File) (img : HTMLImageElement) :
  readAndDecode env file = inr img ->
  width img < 16 \/ height img < 16 ->
  getContext2d env (blankCanvas 192) = true ->
  getContext2d env (blankCanvas 512) = true ->
  fst (convert env file) = inl ImageTooSmall /\
  drawnSizes (snd (convert env file)) = [192; 512].
Proof.
  intros Hread Hsmall H192 H512.
  unfold convert, loadImage, call, await, Promise_all4. cbn [fst snd]. rewrite Hread.
  rewrite (generateIcoBlob_small env img Hsmall). cbn [fst snd].
  rewrite !generatePngBlob_unfold, H192, H512. cbn [fst snd app].
  split; reflexivity.
Qed.

(** ** Scenarios *)

(** A 512 by 512 source: six rows, 256 first and stored as byte 0. *)
Example scenario_square_512 :
  match fst (generateIcoBlob sampleBrowser squareImage) with
  | inr ico =>
      option_map (fun f => (imageCount f, map entrySize (directory f),
                            map width_byte (directory f)))
                 (parseIco (blob_bytes ico))
      = Some (6, [256; 128; 64; 48; 32; 16], [0; 128; 64; 48; 32; 16])
  | inl _ => False
  end.
Proof. vm_compute. reflexivity. Qed.

(** A 20 by 20 source: a single row, 16. *)
Example scenario_small_20 :
  match fst (generateIcoBlob sampleBrowser smallImage) with
  | inr ico =>
      option_map (fun f => (imageCount f, map entrySize (directory f)))
                 (parseIco (blob_bytes ico))
      = Some (1, [16])
  | inl _ => False
  end.
Proof. vm_compute. reflexivity. Qed.

(** A 15 by 15 source is refused before any canvas is made. *)
Example scenario_tiny_15 :
  generateIcoBlob sampleBrowser tinyImage = (inl ImageTooSmall, []).
Proof. reflexivity. Qed.

(** A PNG file goes through the whole pipeline: the four files are zipped
    and the component ends in [success]. *)
Example scenario_png_file :
  let r := handleFileSelect sampleBrowser initialState logoFile in
  status (fst r) = success /\
  errorText (fst r) = None /\
  pngFile (fst r) = Some logoFile /\
  drawnSizes (snd r) = [48; 32; 16; 192; 512] /\
  map (fun ev => match ev with EvZipFile name _ => name | _ => EmptyString end)
      (filter (fun ev => match ev with EvZipFile _ _ => true | _ => false end) (snd r))
  = ["favicon.ico"; "192.png"; "512.png"; "manifest.json"]%string.
Proof. vm_compute. repeat split. Qed.

(** * Further properties of the code *)

(** ** buildIco on any list of entries *)

(** X1. The writes of [generateIcoBlob] after [Promise.all] never raise
    [RangeError], whatever the entries: the result is an [image/x-icon] blob
    of exactly [totalSize] bytes, that is 6 + 16 * n + the buffer lengths. *)
Theorem X1_buildIco_never_out_of_range (imageEntries : list ImageEntry) :
  exists bytes : list byte,
    buildIco imageEntries = inr {| blob_bytes := bytes; blob_type := "image/x-icon" |} /\
    byteLength bytes = totalSize imageEntries /\
    byteLength bytes =
    6 + 16 * Z.of_nat (length imageEntries)
    + sumZ (map (fun entry => byteLength (buffer entry)) imageEntries).
Proof.
  exists (icoBytes imageEntries). split; [apply buildIco_layout|].
  rewrite length_icoBytes, totalSize_sum, length_dataBytes_sum, map_map.
  split; reflexivity.
Qed.

(** X2. The three regions of the file: the header is the first 6 bytes, the
    directory the next 16 * n, and everything after is the buffers of the
    entries one after the other in directory order, with no padding between
    or after them. *)
Theorem X2_buildIco_regions (imageEntries : list ImageEntry) :
  exists header dir : list byte,
    buildIco imageEntries =
    inr {| blob_bytes := header ++ dir ++ concat (map buffer imageEntries);
           blob_type := "image/x-icon" |} /\
    length header = 6%nat /\
    length dir = (16 * length imageEntries)%nat /\
    forall i entry,
      nth_error imageEntries i = Some entry ->
      slice dir (16 * Z.of_nat i) 16 =
      dirRow entry (6 + 16 * Z.of_nat (length imageEntries)
                    + Z.of_nat (length (concat (map buffer (firstn i imageEntries))))).
Proof.
  exists (headerBytes imageEntries),
         (directoryBytes imageEntries (headerSize + directorySize imageEntries)).
  split; [apply buildIco_layout|].
  split; [reflexivity|].
  split; [apply length_directoryBytes|].
  unfold headerSize, directorySize.
  generalize (6 + 16 * Z.of_nat (length imageEntries)) as fo.
  induction imageEntries as [|a es IH]; intros fo [|i] entry Hi; try discriminate.
  - injection Hi as ->. cbn [directoryBytes firstn map concat length].
    rewrite Z.add_0_r, <- (app_nil_l (dirRow entry fo ++ _)).
    apply slice_mid; reflexivity.
  - cbn [nth_error] in Hi. cbn [directoryBytes firstn map concat].
    rewrite length_app.
    replace (fo + Z.of_nat (length (buffer a) + length (concat (map buffer (firstn i es)))))
      with (fo + byteLength (buffer a)
            + Z.of_nat (length (concat (map buffer (firstn i es)))))
      by (unfold byteLength; lia).
    rewrite <- (IH (fo + byteLength (buffer a)) i entry Hi).
    unfold slice.
    replace (Z.to_nat (16 * Z.of_nat (S i))) with (length (dirRow a fo) + Z.to_nat (16 * Z.of_nat i))%nat
      by (rewrite length_dirRow; lia).
    now rewrite skipn_prefix.
Qed.

Lemma rowOf_size (e1 e2 : ImageEntry) (fo1 fo2 : Z) :
  In (size e1) standardSizes -> In (size e2) standardSizes ->
  rowOf e1 fo1 = rowOf e2 fo2 -> size e1 = size e2.
Proof.
  intros H1 H2 Hrow.
  rewrite <- (entrySize_rowOf e1 fo1 H1), <- (entrySize_rowOf e2 fo2 H2).
  now rewrite Hrow.
Qed.

(** X3. The container determines its entries: two lists of entries with
    candidate sizes that [buildIco] turns into the same bytes (fewer than
    2^32 of them) are the same list, sizes and buffers. *)
Theorem X3_buildIco_injective (es1 es2 : list ImageEntry) :
  Forall (fun e => In (size e) standardSizes) es1 ->
  Forall (fun e => In (size e) standardSizes) es2 ->
  Z.of_nat (length es1) < 2 ^ 16 ->
  Z.of_nat (length es2) < 2 ^ 16 ->
  totalSize es1 < 2 ^ 32 ->
  buildIco es1 = buildIco es2 ->
  es1 = es2.
Proof.
  intros Hs1 Hs2 Hn1 Hn2 Htot Heq.
  rewrite !buildIco_layout in Heq.
  assert (Hbytes : icoBytes es1 = icoBytes es2).
  { apply (f_equal (fun r : Error + Blob =>
                      match r with inr b => blob_bytes b | inl _ => [] end)) in Heq.
    exact Heq. }
  clear Heq.
  assert (Hlen1 : byteLength (icoBytes es1) < 2 ^ 32).
  { rewrite length_icoBytes, <- totalSize_sum. exact Htot. }
  assert (Hlen2 : byteLength (icoBytes es2) < 2 ^ 32) by now rewrite <- Hbytes.
  pose proof (parseIco_icoBytes es1 Hn1) as P1.
  pose proof (parseIco_icoBytes es2 Hn2) as P2.
  rewrite Hbytes, P2 in P1.
  pose proof (f_equal (option_map imageCount) P1) as Hcount.
  pose proof (f_equal (option_map directory) P1) as Hrows.
  clear P1 P2. cbn [option_map imageCount directory] in Hcount, Hrows.
  assert (Hc : length es2 = length es1) by (apply Nat2Z.inj; congruence).
  assert (Hr : rowsOf es2 (headerSize + directorySize es2)
               = rowsOf es1 (headerSize + directorySize es1)) by congruence.
  clear Hcount Hrows.
  apply nth_error_ext. intros i.
  destruct (nth_error es1 i) as [e1|] eqn:H1, (nth_error es2 i) as [e2|] eqn:H2.
  - pose proof (rowsOf_nth es1 (headerSize + directorySize es1) i e1 H1) as R1.
    pose proof (rowsOf_nth es2 (headerSize + directorySize es2) i e2 H2) as R2.
    rewrite <- Hr, R2 in R1.
    assert (Hrow : rowOf e2 (headerSize + directorySize es2
                             + Z.of_nat (length (dataBytes (firstn i es2))))
                   = rowOf e1 (headerSize + directorySize es1
                               + Z.of_nat (length (dataBytes (firstn i es1)))))
      by congruence.
    clear R1 R2.
    pose proof (payload_rowOf es1 i e1 H1 Hlen1) as Pay1.
    pose proof (payload_rowOf es2 i e2 H2 Hlen2) as Pay2.
    rewrite Hrow, <- Hbytes in Pay2. rewrite Pay1 in Pay2.
    assert (Hsz : size e1 = size e2).
    { symmetry in Hrow. apply rowOf_size in Hrow; [exact Hrow| |].
      - rewrite Forall_forall in Hs1. apply Hs1. eapply nth_error_In; eassumption.
      - rewrite Forall_forall in Hs2. apply Hs2. eapply nth_error_In; eassumption. }
    destruct e1, e2. cbn in *. now subst.
  - apply nth_error_None in H2. assert (nth_error es1 i <> None) by congruence.
    apply nth_error_Some in H. lia.
  - apply nth_error_None in H1. assert (nth_error es2 i <> None) by congruence.
    apply nth_error_Some in H. lia.
  - reflexivity.
Qed.

Lemma X3_witness :
  totalSize sampleEntries < 2 ^ 32 /\
  buildIco sampleEntries = buildIco sampleEntries /\
  sampleEntries = sampleEntries.
Proof.
  split; [reflexivity|]. split; [reflexivity|].
  apply (X3_buildIco_injective sampleEntries sampleEntries);
    try reflexivity;
    repeat (constructor; [vm_compute; tauto|]); constructor.
Defined.

(** ** generateIcoBlob: when it fulfils, what it starts, what it draws *)

Lemma encoded_exists (env : Browser) (img : HTMLImageElement) (ss : list Z) :
  (exists es, Forall2 (encoded env img) ss es) <->
  Forall (fun s => getContext2d env (blankCanvas s) = true /\
                   toBlob env (drawnCanvas img s) <> None) ss.
Proof.
  induction ss as [|s ss IH].
  - split; [constructor | intros _; exists []; constructor].
  - split.
    + intros (es & H). inversion H as [|? e ? es' (_ & Hc & Hb) Hrest]; subst.
      constructor; [split; [exact Hc | congruence]|].
      apply IH. now exists es'.
    + intros H. inversion H as [|? ? (Hc & Hb) Hrest]; subst.
      apply IH in Hrest. destruct Hrest as (es & Hes).
      destruct (toBlob env (drawnCanvas img s)) as [bytes|] eqn:Hblob; [|congruence].
      exists ({| size := s; buffer := bytes |} :: es).
      constructor; [repeat split; assumption | exact Hes].
Qed.

(** X4. [generateIcoBlob] fulfils exactly when the source is at least 16 by
    16 and, for every selected size, the browser gives a 2D context and the
    encoder gives a blob. *)
Theorem X4_generateIcoBlob_fulfils_iff (env : Browser) (img : HTMLImageElement) :
  (exists ico, fst (generateIcoBlob env img) = inr ico) <->
  16 <= width img /\ 16 <= height img /\
  Forall (fun s => getContext2d env (blankCanvas s) = true /\
                   toBlob env (drawnCanvas img s) <> None) (sizes img).
Proof.
  split.
  - intros (ico & H).
    destruct (generateIcoBlob_inr env img ico (snd (generateIcoBlob env img)))
      as (Hw & Hh & _ & es & Hes & _).
    { rewrite <- H. apply surjective_pairing. }
    repeat split; try assumption. apply encoded_exists. now exists es.
  - intros (Hw & Hh & Hall). apply encoded_exists in Hall. destruct Hall as (es & Hes).
    eexists. exact (generateIcoBlob_fulfils env img es Hw Hh Hes).
Qed.

Lemma contextSizes_app (l1 l2 : list Event) :
  contextSizes (l1 ++ l2) = contextSizes l1 ++ contextSizes l2.
Proof.
  induction l1 as [|ev l1 IH]; [reflexivity|].
  destruct ev; cbn [app contextSizes]; rewrite ?IH; reflexivity.
Qed.

Lemma pngPromise_context (env : Browser) (img : HTMLImageElement) (s : Z) :
  contextSizes (snd (pngPromise env img s)) = [s].
Proof.
  unfold pngPromise, await, resolve. rewrite generatePngBlob_unfold.
  destruct (getContext2d env (blankCanvas s)); cbn [fst snd].
  - destruct (toBlob env (drawnCanvas img s)); reflexivity.
  - reflexivity.
Qed.

Lemma pngPromises_context (env : Browser) (img : HTMLImageElement) (ss : list Z) :
  contextSizes (snd (Promise_all (map (pngPromise env img) ss))) = ss.
Proof.
  induction ss as [|s ss IH]; [reflexivity|].
  cbn [map Promise_all snd]. now rewrite contextSizes_app, pngPromise_context, IH.
Qed.

(** X5. Every selected size is started, whatever happens to the others:
    for a source of at least 16 by 16 the call log has one canvas with its
    [getContext] per selected size, in selection order, also when the
    promise rejects. *)
Theorem X5_every_selected_size_started (env : Browser) (img : HTMLImageElement) :
  16 <= width img -> 16 <= height img ->
  contextSizes (snd (generateIcoBlob env img)) = sizes img.
Proof.
  intros Hw Hh. rewrite (generateIcoBlob_large env img Hw Hh). cbn [snd].
  apply pngPromises_context.
Qed.

Lemma X5_witness :
  fst (generateIcoBlob headlessBrowser sampleImage) = inl NoCanvasContext /\
  contextSizes (snd (generateIcoBlob headlessBrowser sampleImage)) = sizes sampleImage.
Proof.
  split; [reflexivity|].
  apply (X5_every_selected_size_started headlessBrowser sampleImage); cbn; lia.
Defined.

Lemma In_Promise_all_log {A} (ps : list (Promise A)) (ev : Event) :
  In ev (snd (Promise_all ps)) <-> exists p, In p ps /\ In ev (snd p).
Proof.
  induction ps as [|p ps IH]; cbn [Promise_all snd].
  - split; [intros [] | intros (p & [] & _)].
  - rewrite in_app_iff, IH. split.
    + intros [H|(q & Hq & Hev)]; [exists p; split; [now left | exact H]|].
      exists q. split; [now right | exact Hev].
    + intros (q & [<-|Hq] & Hev); [now left|]. right. now exists q.
Qed.

(** X6. The icon entries are never upscaled: every [drawImage] that
    [generateIcoBlob] makes draws the source image at the origin into a
    square of a candidate size that is at most the source width and at most
    the source height. *)
Theorem X6_icon_draws_never_upscale (env : Browser) (img : HTMLImageElement)
        (d : DrawCall) :
  In (EvDrawImage d) (snd (generateIcoBlob env img)) ->
  d_img d = img /\ d_x d = 0 /\ d_y d = 0 /\ d_w d = d_h d /\
  In (d_w d) standardSizes /\ d_w d <= width img /\ d_h d <= height img.
Proof.
  destruct (Z.lt_ge_cases (width img) 16) as [Hw|Hw];
    [rewrite generateIcoBlob_small by (now left); intros []|].
  destruct (Z.lt_ge_cases (height img) 16) as [Hh|Hh];
    [rewrite generateIcoBlob_small by (now right); intros []|].
  rewrite (generateIcoBlob_large env img Hw Hh). cbn [snd].
  rewrite In_Promise_all_log. intros (p & Hp & Hev).
  unfold pngPromises in Hp. apply in_map_iff in Hp. destruct Hp as (s & <- & Hs).
  apply sizes_spec in Hs. destruct Hs as (Hstd & Hsw & Hsh).
  unfold pngPromise, await, resolve in Hev. rewrite generatePngBlob_unfold in Hev.
  assert (Hd : d = {| d_img := img; d_x := 0; d_y := 0; d_w := s; d_h := s |}).
  { destruct (getContext2d env (blankCanvas s)); cbn [fst snd] in Hev.
    - destruct (toBlob env (drawnCanvas img s)); cbn [fst snd app] in Hev;
        repeat (destruct Hev as [Hev|Hev]; try discriminate; try now injection Hev);
        destruct Hev.
    - repeat (destruct Hev as [Hev|Hev]; try discriminate); destruct Hev. }
  subst d. cbn. repeat split; assumption.
Qed.

Lemma X6_witness :
  let d := {| d_img := sampleImage; d_x := 0; d_y := 0; d_w := 48; d_h := 48 |} in
  d_img d = sampleImage /\ d_x d = 0 /\ d_y d = 0 /\ d_w d = d_h d /\
  In (d_w d) standardSizes /\ d_w d <= width sampleImage /\ d_h d <= height sampleImage.
Proof.
  apply (X6_icon_draws_never_upscale sampleBrowser sampleImage).
  vm_compute. tauto.
Defined.

(** X7. The selection grows with the smaller source dimension and depends
    on nothing else: a source whose smaller dimension is at least that of
    another gets every size the other gets, and two sources with the same
    smaller dimension get the same sizes, whatever their aspect ratios. *)
Theorem X7_selection_by_smaller_dimension (img img' : HTMLImageElement) :
  Z.min (width img) (height img) <= Z.min (width img') (height img') ->
  incl (sizes img) (sizes img') /\
  (length (sizes img) <= length (sizes img'))%nat /\
  (Z.min (width img) (height img) = Z.min (width img') (height img') ->
   sizes img = sizes img').
Proof.
  intros Hmin. split; [|split].
  - intros s Hs. apply sizes_spec in Hs. destruct Hs as (Hin & Hsw & Hsh).
    apply sizes_spec. split; [exact Hin | lia].
  - apply NoDup_incl_length; [exact (NoDup_filter _ NoDup_standardSizes)|].
    intros s Hs. apply sizes_spec in Hs. destruct Hs as (Hin & Hsw & Hsh).
    apply sizes_spec. split; [exact Hin | lia].
  - intros Heq. rewrite !sizes_by_min. cbv zeta. now rewrite Heq.
Qed.

Lemma X7_witness :
  incl (sizes smallImage) (sizes sampleImage) /\
  (length (sizes smallImage) <= length (sizes sampleImage))%nat /\
  (Z.min (width smallImage) (height smallImage)
   = Z.min (width sampleImage) (height sampleImage) ->
   sizes smallImage = sizes sampleImage).
Proof.
  apply (X7_selection_by_smaller_dimension smallImage sampleImage). cbn. lia.
Defined.

(** ** handleConvert *)

(** A file that cannot be read or decoded stops [handleConvert] at its
    first [await]. *)
Lemma convert_not_decoded (env : Browser) (file : File) (e : Error) :
  readAndDecode env file = inl e ->
  convert env file = (inl e, [EvReadAsDataURL file]).
Proof.
  intros Hread. unfold convert, loadImage, call, await. cbn [fst snd]. now rewrite Hread.
Qed.

(** Once the image is decoded, the outcome of [handleConvert]'s [try] block,
    case by case. *)
Lemma convert_decoded (env : Browser) (file : File) (img : HTMLImageElement) :
  readAndDecode env file = inr img ->
  convert env file =
  match fst (generateIcoBlob env img), fst (generatePngBlob env img 192),
        fst (generatePngBlob env img 512), fetchManifest env with
  | inl e, _, _, _ => (inl e, startedCalls env file img)
  | inr _, inl e, _, _ => (inl e, startedCalls env file img)
  | inr _, inr _, inl e, _ => (inl e, startedCalls env file img)
  | inr _, inr _, inr _, inl e => (inl e, startedCalls env file img)
  | inr icoBlob, inr png192Blob, inr png512Blob, inr response =>
      if ok response then
        match generateAsync env (zipFiles icoBlob png192Blob png512Blob (body response)) with
        | inl e =>
            (inl e, startedCalls env file img
                    ++ zipCalls icoBlob png192Blob png512Blob (body response))
        | inr zipBlob =>
            (inr (UrlOfBlob zipBlob),
             startedCalls env file img
             ++ zipCalls icoBlob png192Blob png512Blob (body response)
             ++ [EvCreateObjectURL (UrlOfBlob zipBlob)])
        end
      else (inl (ManifestFetchFailed (statusText response)), startedCalls env file img)
  end.
Proof.
  intros Hread. unfold convert, loadImage, startedCalls, zipCalls, zipFiles.
  unfold await, Promise_all4, call, emit, resolve, reject. cbn [fst snd]. rewrite Hread.
  destruct (fst (generateIcoBlob env img)) as [e|icoBlob];
    [cbn [fst snd]; now rewrite ?app_nil_r|].
  destruct (fst (generatePngBlob env img 192)) as [e|png192Blob];
    [cbn [fst snd]; now rewrite ?app_nil_r|].
  destruct (fst (generatePngBlob env img 512)) as [e|png512Blob];
    [cbn [fst snd]; now rewrite ?app_nil_r|].
  destruct (fetchManifest env) as [e|response];
    [cbn [fst snd]; now rewrite ?app_nil_r|].
  cbn [fst snd]. destruct (ok response); cbn [negb fst snd].
  - destruct (generateAsync env _) as [e|zipBlob]; cbn [fst snd app];
      rewrite <- ?app_assoc; cbn [app]; reflexivity.
  - now rewrite app_nil_r.
Qed.

Lemma shownMessage_nonempty (e : Error) : shownMessage e <> EmptyString.
Proof.
  unfold shownMessage. destruct (String.eqb (message e) EmptyString) eqn:H.
  - discriminate.
  - now apply String.eqb_neq.
Qed.

Lemma handleConvert_settled (env : Browser) (st : AppState) (file : File) :
  handleConvert env st file =
  (match fst (convert env file) with
   | inr url => {| pngFile := pngFile st; zipBlobUrl := Some url;
                   status := success; errorText := None |}
   | inl e => {| pngFile := pngFile st; zipBlobUrl := zipBlobUrl st;
                 status := error; errorText := Some (shownMessage e) |}
   end, snd (convert env file)).
Proof. reflexivity. Qed.

(** X8. A file that cannot be read or decoded ends the conversion at once:
    the only browser call is the file read (no canvas, no fetch, no zip),
    the status is [error] with the error's message, and the preview file
    and the download URL of the state are left as they were. *)
Theorem X8_undecodable_file_stops_conversion (env : Browser) (st : AppState)
        (file : File) (e : Error) :
  readAndDecode env file = inl e ->
  handleConvert env st file =
  ({| pngFile := pngFile st; zipBlobUrl := zipBlobUrl st; status := error;
      errorText := Some (if String.eqb (message e) EmptyString
                         then "An unknown error occurred during conversion."%string
                         else message e) |},
   [EvReadAsDataURL file]).
Proof.
  intros Hread. rewrite handleConvert_settled, (convert_not_decoded env file e Hread).
  reflexivity.
Qed.

Lemma X8_witness :
  handleConvert corruptBrowser initialState logoFile =
  ({| pngFile := None; zipBlobUrl := None; status := error;
      errorText := Some "Failed to load image. The file might be corrupted."%string |},
   [EvReadAsDataURL logoFile]).
Proof.
  apply (X8_undecodable_file_stops_conversion corruptBrowser initialState logoFile
                                              LoadImageFailed).
  reflexivity.
Defined.

(** X9. The conversion succeeds exactly when the file decodes, the icon and
    both standalone PNGs are produced, the manifest request answers with
    [ok], and JSZip produces the archive of the four files [favicon.ico],
    [192.png], [512.png], [manifest.json], in this order with these
    contents; the URL is then the object URL of that archive. *)
Theorem X9_conversion_succeeds_iff (env : Browser) (file : File) (url : ObjectURL) :
  fst (convert env file) = inr url <->
  exists img icoBlob png192Blob png512Blob response zipBlob,
    readAndDecode env file = inr img /\
    fst (generateIcoBlob env img) = inr icoBlob /\
    fst (generatePngBlob env img 192) = inr png192Blob /\
    fst (generatePngBlob env img 512) = inr png512Blob /\
    fetchManifest env = inr response /\
    ok response = true /\
    generateAsync env [("favicon.ico", icoBlob); ("192.png", png192Blob);
                       ("512.png", png512Blob); ("manifest.json", body response)]%string
    = inr zipBlob /\
    url = UrlOfBlob zipBlob.
Proof.
  split.
  - destruct (readAndDecode env file) as [e|img] eqn:Hread.
    { rewrite (convert_not_decoded env file e Hread). discriminate. }
    rewrite (convert_decoded env file img Hread).
    destruct (fst (generateIcoBlob env img)) as [e|icoBlob] eqn:Hico; [discriminate|].
    destruct (fst (generatePngBlob env img 192)) as [e|png192Blob] eqn:H192;
      [discriminate|].
    destruct (fst (generatePngBlob env img 512)) as [e|png512Blob] eqn:H512;
      [discriminate|].
    destruct (fetchManifest env) as [e|response] eqn:Hfetch; [discriminate|].
    destruct (ok response) eqn:Hok; [|discriminate].
    destruct (generateAsync env _) as [e|zipBlob] eqn:Hzip; [discriminate|].
    cbn [fst]. intros H. injection H as <-.
    exists img, icoBlob, png192Blob, png512Blob, response, zipBlob.
    repeat split; try reflexivity; assumption.
  - intros (img & icoBlob & png192Blob & png512Blob & response & zipBlob
            & Hread & Hico & H192 & H512 & Hfetch & Hok & Hzip & ->).
    rewrite (convert_decoded env file img Hread), Hico, H192, H512, Hfetch, Hok.
    unfold zipFiles. now rewrite Hzip.
Qed.

(** X10. When the icon and both PNGs were produced but the manifest
    response is not [ok], the conversion fails with "Failed to fetch
    manifest.json: " followed by the status text; nothing is added to the
    zip, no archive is generated and no object URL is created. *)
Theorem X10_manifest_not_ok (env : Browser) (st : AppState) (file : File)
        (img : HTMLImageElement) (icoBlob png192Blob png512Blob : Blob)
        (response : Response) :
  readAndDecode env file = inr img ->
  fst (generateIcoBlob env img) = inr icoBlob ->
  fst (generatePngBlob env img 192) = inr png192Blob ->
  fst (generatePngBlob env img 512) = inr png512Blob ->
  fetchManifest env = inr response ->
  ok response = false ->
  handleConvert env st file =
  ({| pngFile := pngFile st; zipBlobUrl := zipBlobUrl st; status := error;
      errorText := Some ("Failed to fetch manifest.json: " ++ statusText response)%string |},
   startedCalls env file img).
Proof.
  intros Hread Hico H192 H512 Hfetch Hok.
  rewrite handleConvert_settled, (convert_decoded env file img Hread).
  rewrite Hico, H192, H512, Hfetch, Hok. reflexivity.
Qed.

Lemma X10_witness :
  status (fst (handleConvert notFoundBrowser initialState logoFile)) = error /\
  handleConvert notFoundBrowser initialState logoFile =
  ({| pngFile := None; zipBlobUrl := None; status := error;
      errorText := Some "Failed to fetch manifest.json: Not Found"%string |},
   startedCalls notFoundBrowser logoFile sampleImage).
Proof.
  split; [reflexivity|].
  apply (X10_manifest_not_ok notFoundBrowser initialState logoFile sampleImage
           sampleIco
           {| blob_bytes := pngSignature ++ le_split 4 192; blob_type := "image/png" |}
           {| blob_bytes := pngSignature ++ le_split 4 512; blob_type := "image/png" |}
           {| ok := false; statusText := "Not Found";
              body := {| blob_bytes := []; blob_type := "text/html" |} |});
    vm_compute; reflexivity.
Defined.

Lemma createdUrls_app (l1 l2 : list Event) :
  createdUrls (l1 ++ l2) = createdUrls l1 ++ createdUrls l2.
Proof.
  induction l1 as [|ev l1 IH]; [reflexivity|].
  destruct ev; cbn [app createdUrls]; rewrite ?IH; reflexivity.
Qed.

Lemma createdUrls_generatePngBlob (env : Browser) (img : HTMLImageElement) (s : Z) :
  createdUrls (snd (generatePngBlob env img s)) = [].
Proof.
  rewrite generatePngBlob_unfold.
  destruct (getContext2d env (blankCanvas s)); reflexivity.
Qed.

Lemma createdUrls_pngPromises (env : Browser) (img : HTMLImageElement) (ss : list Z) :
  createdUrls (snd (Promise_all (map (pngPromise env img) ss))) = [].
Proof.
  induction ss as [|s ss IH]; [reflexivity|].
  cbn [map Promise_all snd]. rewrite createdUrls_app, IH, app_nil_r.
  unfold pngPromise, await, resolve.
  destruct (fst (generatePngBlob env img s)); cbn [fst snd];
    rewrite ?app_nil_r; apply createdUrls_generatePngBlob.
Qed.

Lemma createdUrls_generateIcoBlob (env : Browser) (img : HTMLImageElement) :
  createdUrls (snd (generateIcoBlob env img)) = [].
Proof.
  destruct (Z.lt_ge_cases (width img) 16) as [Hw|Hw];
    [now rewrite generateIcoBlob_small by (now left)|].
  destruct (Z.lt_ge_cases (height img) 16) as [Hh|Hh];
    [now rewrite generateIcoBlob_small by (now right)|].
  rewrite (generateIcoBlob_large env img Hw Hh). apply createdUrls_pngPromises.
Qed.

Lemma createdUrls_startedCalls (env : Browser) (file : File) (img : HTMLImageElement) :
  createdUrls (startedCalls env file img) = [].
Proof.
  unfold startedCalls.
  now rewrite !createdUrls_app, createdUrls_generateIcoBlob, !createdUrls_generatePngBlob.
Qed.

Lemma createdUrls_convert (env : Browser) (file : File) :
  createdUrls (snd (convert env file)) =
  match fst (convert env file) with
  | inr url => [url]
  | inl _ => []
  end.
Proof.
  destruct (readAndDecode env file) as [e|img] eqn:Hread.
  { now rewrite (convert_not_decoded env file e Hread). }
  rewrite (convert_decoded env file img Hread).
  pose proof (createdUrls_startedCalls env file img) as Hs.
  destruct (fst (generateIcoBlob env img)); [exact Hs|].
  destruct (fst (generatePngBlob env img 192)); [exact Hs|].
  destruct (fst (generatePngBlob env img 512)); [exact Hs|].
  destruct (fetchManifest env) as [e|response]; [exact Hs|].
  destruct (ok response); [|exact Hs].
  destruct (generateAsync env _); cbn [fst snd];
    rewrite !createdUrls_app, Hs; reflexivity.
Qed.

(** X11. However a conversion ends, it ends in [success] or in [error] and
    keeps the preview file.  On success the error text is cleared and the
    download URL is the one object URL the run created.  On failure no
    object URL was created, the download URL of the state is untouched and
    the error text is set and is not the empty string. *)
Theorem X11_conversion_outcome (env : Browser) (st : AppState) (file : File) :
  let r := handleConvert env st file in
  pngFile (fst r) = pngFile st /\
  ((status (fst r) = success /\ errorText (fst r) = None /\
    exists url, zipBlobUrl (fst r) = Some url /\ createdUrls (snd r) = [url])
   \/
   (status (fst r) = error /\ zipBlobUrl (fst r) = zipBlobUrl st /\
    createdUrls (snd r) = [] /\
    exists m, errorText (fst r) = Some m /\ m <> EmptyString)).
Proof.
  cbv zeta. rewrite handleConvert_settled. cbn [fst snd].
  rewrite createdUrls_convert.
  destruct (fst (convert env file)) as [e|url]; cbn [pngFile status errorText zipBlobUrl].
  - split; [reflexivity|]. right. repeat split.
    exists (shownMessage e). split; [reflexivity | apply shownMessage_nonempty].
  - split; [reflexivity|]. left. repeat split. now exists url.
Qed.

Lemma contextSizes_generatePngBlob (env : Browser) (img : HTMLImageElement) (s : Z) :
  contextSizes (snd (generatePngBlob env img s)) = [s].
Proof.
  rewrite generatePngBlob_unfold.
  destruct (getContext2d env (blankCanvas s)); reflexivity.
Qed.

Lemma convert_started (env : Browser) (file : File) (img : HTMLImageElement) :
  readAndDecode env file = inr img ->
  exists rest, snd (convert env file) = startedCalls env file img ++ rest /\
               contextSizes rest = [].
Proof.
  intros Hread. rewrite (convert_decoded env file img Hread).
  destruct (fst (generateIcoBlob env img));
    [exists []; now rewrite app_nil_r|].
  destruct (fst (generatePngBlob env img 192));
    [exists []; now rewrite app_nil_r|].
  destruct (fst (generatePngBlob env img 512));
    [exists []; now rewrite app_nil_r|].
  destruct (fetchManifest env) as [e|response];
    [exists []; now rewrite app_nil_r|].
  destruct (ok response); [|exists []; now rewrite app_nil_r].
  destruct (generateAsync env _); cbn [snd]; eexists; split; reflexivity.
Qed.

(** X12. As soon as the file is decoded all four productions are started,
    whatever the source dimensions and whatever becomes of the others: the
    canvases made are those of the icon sizes followed by one of 192 and one
    of 512, the source is drawn scaled to 192 by 192 and to 512 by 512
    whenever a 2D context is given, and [manifest.json] is requested. *)
Theorem X12_all_productions_started (env : Browser) (file : File)
        (img : HTMLImageElement) :
  readAndDecode env file = inr img ->
  let log := snd (convert env file) in
  contextSizes log = contextSizes (snd (generateIcoBlob env img)) ++ [192; 512] /\
  In (EvFetch "manifest.json") log /\
  (getContext2d env (blankCanvas 192) = true ->
   In (EvDrawImage {| d_img := img; d_x := 0; d_y := 0; d_w := 192; d_h := 192 |}) log) /\
  (getContext2d env (blankCanvas 512) = true ->
   In (EvDrawImage {| d_img := img; d_x := 0; d_y := 0; d_w := 512; d_h := 512 |}) log).
Proof.
  intros Hread log. unfold log.
  destruct (convert_started env file img Hread) as (rest & -> & Hrest).
  unfold startedCalls. split; [|split; [|split]].
  - rewrite !contextSizes_app, !contextSizes_generatePngBlob, Hrest.
    cbn [contextSizes app]. now rewrite app_nil_r.
  - rewrite !in_app_iff. left. do 4 right. now left.
  - intros Hctx. rewrite !in_app_iff. left. right. right. left.
    rewrite generatePngBlob_unfold, Hctx. cbn. tauto.
  - intros Hctx. rewrite !in_app_iff. left. do 3 right. left.
    rewrite generatePngBlob_unfold, Hctx. cbn. tauto.
Qed.

Lemma X12_witness :
  let log := snd (convert tinyBrowser logoFile) in
  fst (convert tinyBrowser logoFile) = inl ImageTooSmall /\
  contextSizes log = contextSizes (snd (generateIcoBlob tinyBrowser tinyImage)) ++ [192; 512] /\
  In (EvFetch "manifest.json") log /\
  (getContext2d tinyBrowser (blankCanvas 192) = true ->
   In (EvDrawImage {| d_img := tinyImage; d_x := 0; d_y := 0; d_w := 192; d_h := 192 |})
      log) /\
  (getContext2d tinyBrowser (blankCanvas 512) = true ->
   In (EvDrawImage {| d_img := tinyImage; d_x := 0; d_y := 0; d_w := 512; d_h := 512 |})
      log).
Proof.
  split; [reflexivity|].
  apply (X12_all_productions_started tinyBrowser logoFile tinyImage). reflexivity.
Defined.

(** ** handleFileSelect, the view and the drop zone *)

Lemma handleFileSelect_png (env : Browser) (st : AppState) (file : File) :
  file_type file = "image/png"%string ->
  handleFileSelect env st file =
  (match fst (convert env file) with
   | inr url => {| pngFile := Some file; zipBlobUrl := Some url;
                   status := success; errorText := None |}
   | inl e => {| pngFile := Some file; zipBlobUrl := None;
                 status := error; errorText := Some (shownMessage e) |}
   end,
   (revoke (pngPreviewUrl st) ++ revoke (zipBlobUrl st)) ++ snd (convert env file)).
Proof.
  intros Hty. unfold handleFileSelect. rewrite Hty.
  change (negb ("image/png" =? "image/png")%string) with false. cbv iota.
  rewrite handleConvert_settled. cbn [fst snd pngFile zipBlobUrl status errorText].
  destruct (fst (convert env file)); reflexivity.
Qed.

Lemma handleFileSelect_other (env : Browser) (st : AppState) (file : File) :
  file_type file <> "image/png"%string ->
  handleFileSelect env st file =
  ({| pngFile := None; zipBlobUrl := None; status := error;
      errorText := Some "Invalid file type. Please upload a PNG file."%string |},
   revoke (pngPreviewUrl st) ++ revoke (zipBlobUrl st)).
Proof.
  intros Hty. unfold handleFileSelect. apply String.eqb_neq in Hty. now rewrite Hty.
Qed.


Lemma quiet_generatePngBlob (env : Browser) (img : HTMLImageElement) (s : Z) :
  filter quiet (snd (generatePngBlob env img s)) = [].
Proof.
  rewrite generatePngBlob_unfold.
  destruct (getContext2d env (blankCanvas s)); reflexivity.
Qed.

Lemma quiet_pngPromises (env : Browser) (img : HTMLImageElement) (ss : list Z) :
  filter quiet (snd (Promise_all (map (pngPromise env img) ss))) = [].
Proof.
  induction ss as [|s ss IH]; [reflexivity|].
  cbn [map Promise_all snd]. rewrite filter_app, IH, app_nil_r.
  unfold pngPromise, await, resolve.
  destruct (fst (generatePngBlob env img s)); cbn [fst snd];
    rewrite ?app_nil_r; apply quiet_generatePngBlob.
Qed.

Lemma quiet_generateIcoBlob (env : Browser) (img : HTMLImageElement) :
  filter quiet (snd (generateIcoBlob env img)) = [].
Proof.
  destruct (Z.lt_ge_cases (width img) 16) as [Hw|Hw];
    [now rewrite generateIcoBlob_small by (now left)|].
  destruct (Z.lt_ge_cases (height img) 16) as [Hh|Hh];
    [now rewrite generateIcoBlob_small by (now right)|].
  rewrite (generateIcoBlob_large env img Hw Hh). apply quiet_pngPromises.
Qed.

Lemma quiet_convert (env : Browser) (file : File) :
  filter quiet (snd (convert env file)) = [].
Proof.
  destruct (readAndDecode env file) as [e|img] eqn:Hread.
  { now rewrite (convert_not_decoded env file e Hread). }
  assert (Hs : filter quiet (startedCalls env file img) = []).
  { unfold startedCalls.
    now rewrite !filter_app, quiet_generateIcoBlob, !quiet_generatePngBlob. }
  rewrite (convert_decoded env file img Hread).
  destruct (fst (generateIcoBlob env img)); [exact Hs|].
  destruct (fst (generatePngBlob env img 192)); [exact Hs|].
  destruct (fst (generatePngBlob env img 512)); [exact Hs|].
  destruct (fetchManifest env) as [e|response]; [exact Hs|].
  destruct (ok response); [|exact Hs].
  destruct (generateAsync env _); cbn [fst snd];
    rewrite !filter_app, Hs; reflexivity.
Qed.

(** X14. A selection revokes the object URLs the previous state held (the
    preview URL of the previous file and the previous download URL), once
    each and before anything else, and revokes nothing else; in particular
    the download URL left by one selection is revoked by the next one. *)
Theorem X14_previous_urls_revoked (env : Browser) (st : AppState) (file file' : File) :
  let r := handleFileSelect env st file in
  (exists rest, snd r = (revoke (pngPreviewUrl st) ++ revoke (zipBlobUrl st)) ++ rest /\
                filter quiet rest = []) /\
  filter quiet (snd r) = revoke (pngPreviewUrl st) ++ revoke (zipBlobUrl st) /\
  (forall url, zipBlobUrl (fst r) = Some url ->
               In (EvRevokeObjectURL url) (snd (handleFileSelect env (fst r) file'))).
Proof.
  cbv zeta.
  assert (Hq : forall st', filter quiet (revoke (pngPreviewUrl st') ++ revoke (zipBlobUrl st'))
                           = revoke (pngPreviewUrl st') ++ revoke (zipBlobUrl st')).
  { intros st'. unfold revoke. destruct (pngPreviewUrl st'), (zipBlobUrl st'); reflexivity. }
  assert (Hshape : forall st' f,
             exists rest, snd (handleFileSelect env st' f)
                          = (revoke (pngPreviewUrl st') ++ revoke (zipBlobUrl st')) ++ rest /\
                          filter quiet rest = []).
  { intros st' f. destruct (String.eqb_spec (file_type f) "image/png") as [Hty|Hty].
    - rewrite (handleFileSelect_png env st' f Hty). cbn [snd].
      eexists. split; [reflexivity | apply quiet_convert].
    - rewrite (handleFileSelect_other env st' f Hty). cbn [snd].
      exists []. split; [now rewrite app_nil_r | reflexivity]. }
  split; [apply Hshape|]. split.
  - destruct (Hshape st file) as (rest & -> & Hrest).
    now rewrite filter_app, Hrest, app_nil_r, Hq.
  - intros url Hurl.
    destruct (Hshape (fst (handleFileSelect env st file)) file') as (rest & -> & _).
    rewrite Hurl. rewrite !in_app_iff. left. right. now left.
Qed.

(** X15. What is shown after a selection: the drop zone is enabled again and
    the "Converting..." panel is gone; either the download button is shown
    (file name [icons.zip], together with the preview of the selected file
    and no error panel) or the error panel is shown with a text that is not
    empty and no download button.  For a file that is not a PNG no preview
    is shown. *)
Theorem X15_view_after_selection (env : Browser) (st : AppState) (file : File) :
  let v := render (fst (handleFileSelect env st file)) in
  uploadDisabled v = false /\ convertingShown v = false /\
  ((exists url, downloadShown v = Some (url, "icons.zip"%string) /\
                errorShown v = None /\ previewShown v = Some (UrlOfFile file))
   \/
   (downloadShown v = None /\
    (exists m, errorShown v = Some (Some m) /\ m <> EmptyString) /\
    previewShown v = if String.eqb (file_type file) "image/png"
                     then Some (UrlOfFile file) else None)).
Proof.
  cbv zeta.
  destruct (String.eqb_spec (file_type file) "image/png") as [Hty|Hty].
  - rewrite (handleFileSelect_png env st file Hty). cbn [fst].
    destruct (fst (convert env file)) as [e|url].
    + repeat split. right. repeat split.
      exists (shownMessage e). split; [reflexivity | apply shownMessage_nonempty].
    + repeat split. left. exists url. repeat split.
  - rewrite (handleFileSelect_other env st file Hty). cbn [fst].
    repeat split. right. repeat split.
    eexists. split; [reflexivity | discriminate].
Qed.

(** X16. While a conversion is running ([status] is [converting]) the drop
    zone is disabled and the "Converting..." panel is shown without download
    button or error panel; a drop then selects nothing, whatever is dropped:
    the app state is unchanged, no browser call is made and only
    [isDragging] is reset; drag events leave [isDragging] as it is. *)
Theorem X16_drop_ignored_while_converting (env : Browser) (ui : UI) (files : FileList)
        (isEntering : bool) :
  status (appState ui) = converting ->
  onDrop env ui files = ({| appState := appState ui; isDragging := false |}, []) /\
  onDrag ui isEntering = ui /\
  uploadDisabled (render (appState ui)) = true /\
  convertingShown (render (appState ui)) = true /\
  downloadShown (render (appState ui)) = None /\
  errorShown (render (appState ui)) = None.
Proof.
  intros Hst. unfold onDrop, onDrag, handleDrop, handleDragEvents, render.
  cbn [uploadDisabled convertingShown downloadShown errorShown fst snd].
  rewrite Hst. cbn [Status_eqb negb]. destruct ui. repeat split.
Qed.

Lemma X16_witness :
  let ui := {| appState := selectionStarted initialState logoFile; isDragging := true |} in
  onDrop sampleBrowser ui (Some [logoFile])
  = ({| appState := appState ui; isDragging := false |}, []) /\
  onDrag ui false = ui /\
  uploadDisabled (render (appState ui)) = true /\
  convertingShown (render (appState ui)) = true /\
  downloadShown (render (appState ui)) = None /\
  errorShown (render (appState ui)) = None.
Proof.
  apply (X16_drop_ignored_while_converting
           sampleBrowser
           {| appState := selectionStarted initialState logoFile; isDragging := true |}
           (Some [logoFile]) false).
  reflexivity.
Defined.

(** X17. Of the files dropped or chosen only the first counts: the others
    change nothing, so when the first is not a PNG the selection is refused
    with the file-type error even if a PNG follows; an empty or missing file
    list selects nothing and makes no browser call. *)
Theorem X17_only_first_file_counts (env : Browser) (ui : UI) (f : File)
        (others : list File) :
  status (appState ui) <> converting ->
  onDrop env ui (Some (f :: others)) =
    ({| appState := fst (handleFileSelect env (appState ui) f); isDragging := false |},
     snd (handleFileSelect env (appState ui) f)) /\
  onChange env ui (Some (f :: others)) =
    ({| appState := fst (handleFileSelect env (appState ui) f);
        isDragging := isDragging ui |},
     snd (handleFileSelect env (appState ui) f)) /\
  (file_type f <> "image/png"%string ->
   appState (fst (onDrop env ui (Some (f :: others)))) =
   {| pngFile := None; zipBlobUrl := None; status := error;
      errorText := Some "Invalid file type. Please upload a PNG file."%string |}) /\
  onDrop env ui (Some []) = ({| appState := appState ui; isDragging := false |}, []) /\
  onDrop env ui None = ({| appState := appState ui; isDragging := false |}, []) /\
  onChange env ui (Some []) = (ui, []) /\
  onChange env ui None = (ui, []).
Proof.
  intros Hst.
  assert (Hen : uploadDisabled (render (appState ui)) = false).
  { unfold render. cbn [uploadDisabled].
    destruct (status (appState ui)) eqn:E; try reflexivity. congruence. }
  unfold onDrop, onChange, handleDrop, handleFileChange, firstFile.
  rewrite Hen. cbn [fst snd]. repeat split.
  intros Hty. cbn [appState]. now rewrite (handleFileSelect_other env _ f Hty).
Qed.

Lemma X17_witness :
  let ui := {| appState := initialState; isDragging := true |} in
  appState (fst (onDrop sampleBrowser ui (Some [textFile; logoFile]))) =
  {| pngFile := None; zipBlobUrl := None; status := error;
     errorText := Some "Invalid file type. Please upload a PNG file."%string |} /\
  onDrop sampleBrowser ui (Some []) = ({| appState := appState ui; isDragging := false |}, []).
Proof.
  cbv zeta.
  destruct (X17_only_first_file_counts
              sampleBrowser {| appState := initialState; isDragging := true |}
              textFile [logoFile])
    as (_ & _ & Hbad & Hempty & _).
  - cbn. discriminate.
  - split; [apply Hbad; cbn; discriminate | exact Hempty].
Defined.

(** ** The errors of generateIcoBlob *)

(** X18. [generateIcoBlob] rejects in two ways only: with [ImageTooSmall],
    exactly for a source narrower or shorter than 16, or, for a larger
    source, with the canvas error of one of the selected sizes (no 2D
    context for it, or no blob from the encoder).  It never rejects with
    [RangeError]: the buffer writes stay in range. *)
Theorem X18_generateIcoBlob_rejections (env : Browser) (img : HTMLImageElement)
        (e : Error) :
  fst (generateIcoBlob env img) = inl e ->
  (e = ImageTooSmall /\ (width img < 16 \/ height img < 16))
  \/
  (16 <= width img /\ 16 <= height img /\
   exists s, In s (sizes img) /\
             ((e = NoCanvasContext /\ getContext2d env (blankCanvas s) = false)
              \/ (e = BlobFailed s /\ getContext2d env (blankCanvas s) = true /\
                  toBlob env (drawnCanvas img s) = None))).
Proof.
  destruct (Z.lt_ge_cases (width img) 16) as [Hw|Hw].
  { rewrite generateIcoBlob_small by (now left). intros H. injection H as <-.
    left. split; [reflexivity | now left]. }
  destruct (Z.lt_ge_cases (height img) 16) as [Hh|Hh].
  { rewrite generateIcoBlob_small by (now right). intros H. injection H as <-.
    left. split; [reflexivity | now right]. }
  rewrite (generateIcoBlob_large env img Hw Hh). cbn [fst].
  destruct (fst (Promise_all (pngPromises env img))) as [e'|es] eqn:Hall; [|discriminate].
  intros H. injection H as <-. right. repeat split; try assumption.
  destruct (Promise_all_inl _ _ Hall) as (p & Hp & Hpe).
  unfold pngPromises in Hp. apply in_map_iff in Hp. destruct Hp as (s & <- & Hs).
  exists s. split; [exact Hs|].
  unfold pngPromise, await, resolve in Hpe. rewrite generatePngBlob_unfold in Hpe.
  destruct (getContext2d env (blankCanvas s)); cbn [fst snd] in Hpe.
  - destruct (toBlob env (drawnCanvas img s)); cbn [fst snd] in Hpe; [discriminate|].
    injection Hpe as <-. right. repeat split.
  - injection Hpe as <-. left. now split.
Qed.

Lemma X18_witness :
  (NoCanvasContext = ImageTooSmall /\ (width sampleImage < 16 \/ height sampleImage < 16))
  \/
  (16 <= width sampleImage /\ 16 <= height sampleImage /\
   exists s, In s (sizes sampleImage) /\
             ((NoCanvasContext = NoCanvasContext /\
               getContext2d headlessBrowser (blankCanvas s) = false)
              \/ (NoCanvasContext = BlobFailed s /\
                  getContext2d headlessBrowser (blankCanvas s) = true /\
                  toBlob headlessBrowser (drawnCanvas sampleImage s) = None))).
Proof.
  apply (X18_generateIcoBlob_rejections headlessBrowser sampleImage NoCanvasContext).
  reflexivity.
Defined.
